(** * VoiceRecorder: the voice-capture session of the chat assistant

    A shallow embedding of [src/components/VoiceRecorder.tsx].  The component
    is a React function component: its state cells ([useState]) and reference
    cells ([useRef]) live across renders, while every function defined in the
    component body ([cleanup], [stopRecording], the recognizer callbacks, the
    interval callback) is a closure over the constants of the render that
    created it.  Both aspects are modelled explicitly: the world holds the
    cells and the browser objects the cells refer to, every callback carries
    the render it closes over, and a commit re-runs the effects whose
    dependencies changed.  The browser is the environment: it delivers
    recognizer events, recorder events, animation frames and the passing of
    time. *)

From Stdlib Require Import ZArith QArith Qminmax List Bool Lia String Ascii.
From stdpp Require Import base list.
Import ListNotations.

Local Open Scope Z_scope.

(** ** JavaScript strings *)

(** A JavaScript string is a sequence of UTF-16 code units. *)
Definition jsstring := list N.

(** Code units of an ASCII literal. *)
Fixpoint js (s : string) : jsstring :=
  match s with
  | EmptyString => []
  | String c r => N_of_ascii c :: js r
  end.

(** ECMAScript [WhiteSpace] and [LineTerminator] code points, the characters
    that [String.prototype.trim] strips. *)
Definition is_white_space (c : N) : bool :=
  ((9 <=? c) && (c <=? 13) || (c =? 32) || (c =? 160) || (c =? 5760)
   || (8192 <=? c) && (c <=? 8202) || (c =? 8232) || (c =? 8233)
   || (c =? 8239) || (c =? 8287) || (c =? 12288) || (c =? 65279))%N.

Fixpoint trimStart (s : jsstring) : jsstring :=
  match s with
  | [] => []
  | c :: r => if is_white_space c then trimStart r else s
  end.

Definition trimEnd (s : jsstring) : jsstring := rev (trimStart (rev s)).

Definition trim (s : jsstring) : jsstring := trimEnd (trimStart s).

(** Truthiness of a string: every string but the empty one is truthy. *)
Definition truthy (s : jsstring) : bool :=
  match s with [] => false | _ :: _ => true end.

(** [a || b] on strings. *)
Definition js_or (a b : jsstring) : jsstring := if truthy a then a else b.

(** ** Recognizer result batches *)

(** One entry of [event.results]: the transcript of its first alternative
    ([event.results[i][0].transcript]; the Web Speech API gives every result
    at least one alternative) and its [isFinal] flag. *)
Record SpeechRecognitionResult := mkResult {
  res_transcript : jsstring;
  res_isFinal : bool
}.

Record SpeechRecognitionEvent := mkEvent {
  resultIndex : nat;
  results : list SpeechRecognitionResult
}.

(** The body of the [for] loop of [onresult], on the pair
    ([finalTranscript], [interimTranscript]). *)
Definition accumulate (acc : jsstring * jsstring) (r : SpeechRecognitionResult)
  : jsstring * jsstring :=
  if res_isFinal r
  then (fst acc ++ res_transcript r, snd acc)
  else (fst acc, snd acc ++ res_transcript r).

(** The loop [for (i = event.resultIndex; i < event.results.length; i++)],
    started from two empty strings. *)
Definition scan (ev : SpeechRecognitionEvent) : jsstring * jsstring :=
  fold_left accumulate (skipn (resultIndex ev) (results ev)) ([], []).

Definition finalTranscript (ev : SpeechRecognitionEvent) : jsstring := fst (scan ev).
Definition interimTranscript (ev : SpeechRecognitionEvent) : jsstring := snd (scan ev).

(** [const currentTranscript = finalTranscript || interimTranscript]. *)
Definition currentTranscript (ev : SpeechRecognitionEvent) : jsstring :=
  js_or (finalTranscript ev) (interimTranscript ev).

(** ** Level monitor arithmetic *)

(** The frequency-bin buffer is a [Uint8Array].  The source computes in
    binary64; the buffer it allocates has 128 bins ([fftSize = 256]), for
    which the sum, the division by the length and the division by 128 are
    all exact, so the rationals give the same values. *)
Definition bin (b : Byte.byte) : Z := Z.of_N (Byte.to_N b).

(** [dataArray.reduce((a, b) => a + b)]: without an initial value, [reduce]
    throws a [TypeError] on an empty array ([None]). *)
Definition reduce_sum (d : list Byte.byte) : option Z :=
  match d with
  | [] => None
  | x :: r => Some (fold_left (fun a b => a + bin b) r (bin x))
  end.

Definition average (d : list Byte.byte) : option Q :=
  match reduce_sum d with
  | None => None
  | Some s => Some (inject_Z s / inject_Z (Z.of_nat (length d)))%Q
  end.

(** [Math.min(average / 128, 1)]. *)
Definition normalizedVolume (avg : Q) : Q := Qmin (avg / 128) 1.

(** [normalizedVolume > 0.15]. *)
Definition above_threshold (v : Q) : bool := negb (Qle_bool v (15 # 100)).

(** ** Renders and closures *)

(** The constants of one render that the closures of that render read:
    [isRecording] and [transcript] are [const] bindings of the function body,
    so [stopRecording] and [onend] see the values of the render in which they
    were created, not the later contents of the state cells. *)
Record Render := mkRender {
  r_isRecording : bool;
  r_transcript : jsstring
}.

(** ** Browser objects *)

Inductive RecordingState := inactive | recording.

(** A [MediaRecorder] with the stream it was constructed on; its [onstop]
    handler closes over that stream. *)
Record MediaRecorder := mkRecorder {
  mr_state : RecordingState;
  mr_stream : nat
}.

Inductive AudioContextState := running | closed.

(** A [SpeechRecognition] object: the render whose closures were installed as
    its [onresult], [onerror] and [onend] handlers, and whether it is started. *)
Record SpeechRecognition := mkRecognition {
  rec_render : Render;
  rec_started : bool
}.

(** A pending [setTimeout] of [onresult]: its handle, its due time, and what
    the callback closes over ([currentTranscript] and the render). *)
Record Timeout := mkTimeout {
  t_id : nat;
  t_due : Z;
  t_text : jsstring;
  t_render : Render
}.

(** A pending [setInterval] of the duration effect: its handle, the captured
    [startTime], the time of its next tick and the render it closes over. *)
Record Interval := mkInterval {
  i_id : nat;
  i_startTime : Z;
  i_due : Z;
  i_render : Render
}.

(** [event.error] of a recognition error event. *)
Inductive ErrorCode :=
  | no_speech | aborted | audio_capture | network | not_allowed
  | service_not_allowed | bad_grammar | language_not_supported.

Definition is_no_speech (c : ErrorCode) : bool :=
  match c with no_speech => true | _ => false end.

(** Calls that leave the component, in the order they are made. *)
Inductive Effect :=
  | OnRecordingComplete (text : jsstring)
  | OnInputChange (text : jsstring)
  | ConsoleSpeechError (code : ErrorCode)
  | ConsoleMicrophoneError
  | RecognitionStart (r : nat)
  | RecognitionStop (r : nat)
  | RecorderStart (m : nat)
  | RecorderStop (m : nat)
  | TrackStop (s : nat)
  | ContextClose (c : nat)
  | ClearTimeout (id : nat)
  | ClearInterval (id : nat)
  | CancelAnimationFrame (id : nat).

(** ** The component *)

(** The [useState] cells. *)
Record State := mkState {
  isRecording : bool;
  transcript : jsstring;
  isSpeaking : bool;
  volume : Q;
  recordingDuration : Z
}.

(** The [useRef] cells; object references are indices into the browser's
    stores, timer and frame handles are the positive numbers the browser
    hands out (so [if (ref.current)] is a test against [null]). *)
Record Refs := mkRefs {
  mediaRecorderRef : option nat;
  recognitionRef : option nat;
  chunksRef : list nat;
  silenceTimeoutRef : option nat;
  audioContextRef : option nat;
  analyserRef : option nat;
  dataArrayRef : option (list Byte.byte);
  animationFrameRef : option nat;
  durationIntervalRef : option nat
}.

Record Browser := mkBrowser {
  streams : list bool;                    (* per stream: are its tracks live *)
  recorders : list MediaRecorder;
  contexts : list AudioContextState;
  recognizers : list SpeechRecognition;
  timeouts : list Timeout;                (* pending *)
  intervals : list Interval;              (* pending *)
  frames : list nat;                      (* pending animation-frame requests *)
  nextHandle : nat;
  now : Z                                 (* Date.now() *)
}.

Record World := mkWorld {
  state : State;
  refs : Refs;
  browser : Browser;
  deps_isRecording : bool;   (* [isRecording] when the effects last ran *)
  speechSupported : bool;    (* 'SpeechRecognition' in window || ... *)
  log : list Effect
}.

Definition SILENCE_THRESHOLD : Z := 2000.
Definition MAX_RECORDING_DURATION : Z := 60000.

(** *** Field updates *)

Definition with_state (f : State -> State) (w : World) : World :=
  mkWorld (f (state w)) (refs w) (browser w) (deps_isRecording w) (speechSupported w) (log w).
Definition with_refs (f : Refs -> Refs) (w : World) : World :=
  mkWorld (state w) (f (refs w)) (browser w) (deps_isRecording w) (speechSupported w) (log w).
Definition with_browser (f : Browser -> Browser) (w : World) : World :=
  mkWorld (state w) (refs w) (f (browser w)) (deps_isRecording w) (speechSupported w) (log w).
Definition set_deps (b : bool) (w : World) : World :=
  mkWorld (state w) (refs w) (browser w) b (speechSupported w) (log w).
Definition emit (e : Effect) (w : World) : World :=
  mkWorld (state w) (refs w) (browser w) (deps_isRecording w) (speechSupported w) (log w ++ [e]).

Definition setIsRecording (b : bool) : World -> World :=
  with_state (fun s => mkState b (transcript s) (isSpeaking s) (volume s) (recordingDuration s)).
Definition setTranscript (t : jsstring) : World -> World :=
  with_state (fun s => mkState (isRecording s) t (isSpeaking s) (volume s) (recordingDuration s)).
Definition setIsSpeaking (b : bool) : World -> World :=
  with_state (fun s => mkState (isRecording s) (transcript s) b (volume s) (recordingDuration s)).
Definition setVolume (v : Q) : World -> World :=
  with_state (fun s => mkState (isRecording s) (transcript s) (isSpeaking s) v (recordingDuration s)).
Definition setRecordingDuration (d : Z) : World -> World :=
  with_state (fun s => mkState (isRecording s) (transcript s) (isSpeaking s) (volume s) d).

Definition set_mediaRecorderRef (x : option nat) : World -> World :=
  with_refs (fun r => mkRefs x (recognitionRef r) (chunksRef r) (silenceTimeoutRef r)
    (audioContextRef r) (analyserRef r) (dataArrayRef r) (animationFrameRef r) (durationIntervalRef r)).
Definition set_recognitionRef (x : option nat) : World -> World :=
  with_refs (fun r => mkRefs (mediaRecorderRef r) x (chunksRef r) (silenceTimeoutRef r)
    (audioContextRef r) (analyserRef r) (dataArrayRef r) (animationFrameRef r) (durationIntervalRef r)).
Definition set_chunksRef (x : list nat) : World -> World :=
  with_refs (fun r => mkRefs (mediaRecorderRef r) (recognitionRef r) x (silenceTimeoutRef r)
    (audioContextRef r) (analyserRef r) (dataArrayRef r) (animationFrameRef r) (durationIntervalRef r)).
Definition set_silenceTimeoutRef (x : option nat) : World -> World :=
  with_refs (fun r => mkRefs (mediaRecorderRef r) (recognitionRef r) (chunksRef r) x
    (audioContextRef r) (analyserRef r) (dataArrayRef r) (animationFrameRef r) (durationIntervalRef r)).
Definition set_audioContextRef (x : option nat) : World -> World :=
  with_refs (fun r => mkRefs (mediaRecorderRef r) (recognitionRef r) (chunksRef r) (silenceTimeoutRef r)
    x (analyserRef r) (dataArrayRef r) (animationFrameRef r) (durationIntervalRef r)).
Definition set_analyserRef (x : option nat) : World -> World :=
  with_refs (fun r => mkRefs (mediaRecorderRef r) (recognitionRef r) (chunksRef r) (silenceTimeoutRef r)
    (audioContextRef r) x (dataArrayRef r) (animationFrameRef r) (durationIntervalRef r)).
Definition set_dataArrayRef (x : option (list Byte.byte)) : World -> World :=
  with_refs (fun r => mkRefs (mediaRecorderRef r) (recognitionRef r) (chunksRef r) (silenceTimeoutRef r)
    (audioContextRef r) (analyserRef r) x (animationFrameRef r) (durationIntervalRef r)).
Definition set_animationFrameRef (x : option nat) : World -> World :=
  with_refs (fun r => mkRefs (mediaRecorderRef r) (recognitionRef r) (chunksRef r) (silenceTimeoutRef r)
    (audioContextRef r) (analyserRef r) (dataArrayRef r) x (durationIntervalRef r)).
Definition set_durationIntervalRef (x : option nat) : World -> World :=
  with_refs (fun r => mkRefs (mediaRecorderRef r) (recognitionRef r) (chunksRef r) (silenceTimeoutRef r)
    (audioContextRef r) (analyserRef r) (dataArrayRef r) (animationFrameRef r) x).

Definition set_streams (x : list bool) : World -> World :=
  with_browser (fun b => mkBrowser x (recorders b) (contexts b) (recognizers b)
    (timeouts b) (intervals b) (frames b) (nextHandle b) (now b)).
Definition set_recorders (x : list MediaRecorder) : World -> World :=
  with_browser (fun b => mkBrowser (streams b) x (contexts b) (recognizers b)
    (timeouts b) (intervals b) (frames b) (nextHandle b) (now b)).
Definition set_contexts (x : list AudioContextState) : World -> World :=
  with_browser (fun b => mkBrowser (streams b) (recorders b) x (recognizers b)
    (timeouts b) (intervals b) (frames b) (nextHandle b) (now b)).
Definition set_recognizers (x : list SpeechRecognition) : World -> World :=
  with_browser (fun b => mkBrowser (streams b) (recorders b) (contexts b) x
    (timeouts b) (intervals b) (frames b) (nextHandle b) (now b)).
Definition set_timeouts (x : list Timeout) : World -> World :=
  with_browser (fun b => mkBrowser (streams b) (recorders b) (contexts b) (recognizers b)
    x (intervals b) (frames b) (nextHandle b) (now b)).
Definition set_intervals (x : list Interval) : World -> World :=
  with_browser (fun b => mkBrowser (streams b) (recorders b) (contexts b) (recognizers b)
    (timeouts b) x (frames b) (nextHandle b) (now b)).
Definition set_frames (x : list nat) : World -> World :=
  with_browser (fun b => mkBrowser (streams b) (recorders b) (contexts b) (recognizers b)
    (timeouts b) (intervals b) x (nextHandle b) (now b)).
Definition set_nextHandle (x : nat) : World -> World :=
  with_browser (fun b => mkBrowser (streams b) (recorders b) (contexts b) (recognizers b)
    (timeouts b) (intervals b) (frames b) x (now b)).
Definition set_now (x : Z) : World -> World :=
  with_browser (fun b => mkBrowser (streams b) (recorders b) (contexts b) (recognizers b)
    (timeouts b) (intervals b) (frames b) (nextHandle b) x).

(** The render of the current contents of the state cells. *)
Definition render_of (w : World) : Render :=
  mkRender (isRecording (state w)) (transcript (state w)).

(** ** Browser operations used by the component *)

(** A fresh timer or animation-frame handle. *)
Definition fresh_handle (w : World) : nat * World :=
  let h := nextHandle (browser w) in (h, set_nextHandle (S h) w).

Definition clearTimeout (id : nat) (w : World) : World :=
  emit (ClearTimeout id)
    (set_timeouts (List.filter (fun t => negb (t_id t =? id)%nat) (timeouts (browser w))) w).

Definition clearInterval (id : nat) (w : World) : World :=
  emit (ClearInterval id)
    (set_intervals (List.filter (fun i => negb (i_id i =? id)%nat) (intervals (browser w))) w).

Definition cancelAnimationFrame (id : nat) (w : World) : World :=
  emit (CancelAnimationFrame id)
    (set_frames (List.filter (fun f => negb (f =? id)%nat) (frames (browser w))) w).

(** [recognition.stop()]; on a recognizer that is not started it does nothing
    more. *)
Definition recognition_stop (r : nat) (w : World) : World :=
  emit (RecognitionStop r)
    (set_recognizers
       (alter (fun x => mkRecognition (rec_render x) false) r (recognizers (browser w))) w).

(** [mediaRecorder.stop()]; the recorder's [stop] event is delivered later. *)
Definition recorder_stop (m : nat) (w : World) : World :=
  emit (RecorderStop m)
    (set_recorders
       (alter (fun x => mkRecorder inactive (mr_stream x)) m (recorders (browser w))) w).

Definition recorder_start (m : nat) (w : World) : World :=
  emit (RecorderStart m)
    (set_recorders
       (alter (fun x => mkRecorder recording (mr_stream x)) m (recorders (browser w))) w).

(** [stream.getTracks().forEach(track => track.stop())]. *)
Definition tracks_stop (s : nat) (w : World) : World :=
  emit (TrackStop s) (set_streams (<[s := false]> (streams (browser w))) w).

Definition context_close (c : nat) (w : World) : World :=
  emit (ContextClose c) (set_contexts (<[c := closed]> (contexts (browser w))) w).

(** [ref.current && ref.current.state !== 'closed']. *)
Definition context_open (c : nat) (w : World) : bool :=
  match contexts (browser w) !! c with
  | Some closed => false
  | _ => true
  end.

(** ** The component's functions *)

(** [cleanup] (lines 103-120); it reads reference cells only. *)
Definition cleanup (w : World) : World :=
  let w := match recognitionRef (refs w) with
           | Some r => recognition_stop r w | None => w end in
  let w := match silenceTimeoutRef (refs w) with
           | Some id => clearTimeout id w | None => w end in
  let w := match animationFrameRef (refs w) with
           | Some id => cancelAnimationFrame id w | None => w end in
  let w := match durationIntervalRef (refs w) with
           | Some id => clearInterval id w | None => w end in
  let w := match audioContextRef (refs w) with
           | Some c => if context_open c w then context_close c w else w
           | None => w end in
  setRecordingDuration 0 w.

(** [stopRecording] (lines 187-203) as created by render [rd]: the guard
    reads the reference cell and the render's [isRecording]; the delivery
    reads the render's [transcript]. *)
Definition stopRecording (rd : Render) (w : World) : World :=
  match mediaRecorderRef (refs w) with
  | Some m =>
      if r_isRecording rd then
        let w := recorder_stop m w in
        let w := match recognitionRef (refs w) with
                 | Some r => recognition_stop r w | None => w end in
        let w := match silenceTimeoutRef (refs w) with
                 | Some id => clearTimeout id w | None => w end in
        let w := setIsRecording false w in
        let w := setIsSpeaking false w in
        let w := if truthy (trim (r_transcript rd))
                 then emit (OnRecordingComplete (r_transcript rd)) w else w in
        setTranscript [] w
      else w
  | None => w
  end.

(** The callback handed to [setTimeout] in [onresult] (lines 57-61). *)
Definition silence_callback (t : Timeout) (w : World) : World :=
  if truthy (trim (t_text t)) then stopRecording (t_render t) w else w.

(** [recognition.onresult] (lines 37-62) as created by render [rd]. *)
Definition onresult (rd : Render) (ev : SpeechRecognitionEvent) (w : World) : World :=
  let cur := currentTranscript ev in
  let w := setTranscript cur w in
  let w := emit (OnInputChange cur) w in
  let w := match silenceTimeoutRef (refs w) with
           | Some id => clearTimeout id w | None => w end in
  let (h, w) := fresh_handle w in
  let w := set_timeouts
             (timeouts (browser w) ++
              [mkTimeout h (now (browser w) + SILENCE_THRESHOLD) cur rd]) w in
  set_silenceTimeoutRef (Some h) w.

(** [recognition.onerror] (lines 64-69). *)
Definition onerror (rd : Render) (code : ErrorCode) (w : World) : World :=
  let w := emit (ConsoleSpeechError code) w in
  if is_no_speech code then stopRecording rd w else w.

(** [recognition.start()]: it throws an [InvalidStateError] on a recognizer
    that is already started; the boolean tells whether it returned. *)
Definition recognition_start (r : nat) (w : World) : World * bool :=
  match recognizers (browser w) !! r with
  | Some x =>
      if rec_started x then (w, false)
      else (emit (RecognitionStart r)
              (set_recognizers
                 (<[r := mkRecognition (rec_render x) true]> (recognizers (browser w))) w),
            true)
  | None => (w, false)
  end.

(** [recognition.onend] (lines 71-75) as created by render [rd]; nothing
    follows the call of [start], so an exception changes nothing more. *)
Definition onend (rd : Render) (w : World) : World :=
  if r_isRecording rd then
    match recognitionRef (refs w) with
    | Some r => fst (recognition_start r w)
    | None => w
    end
  else w.

(** The callback handed to [setInterval] (lines 86-93). *)
Definition duration_callback (i : Interval) (w : World) : World :=
  let duration := now (browser w) - i_startTime i in
  let w := setRecordingDuration duration w in
  if MAX_RECORDING_DURATION <=? duration then stopRecording (i_render i) w else w.

(** *** The try block of [startRecording]: state with exceptions *)

(** A computation that may throw: the world it leaves, and its value unless
    it threw.  Mutations made before an exception stay. *)
Definition Try (A : Type) : Type := World -> World * option A.

Definition ret {A} (a : A) : Try A := fun w => (w, Some a).
Definition throw {A} : Try A := fun w => (w, None).
Definition bind {A B} (c : Try A) (k : A -> Try B) : Try B :=
  fun w => match c w with
           | (w', Some a) => k a w'
           | (w', None) => (w', None)
           end.
Definition lift (f : World -> World) : Try unit := fun w => (f w, Some tt).
Definition gets {A} (f : World -> A) : Try A := fun w => (w, Some (f w)).

Notation "x <- c ;; k" := (bind c (fun x => k))
  (at level 62, c at next level, right associativity).
Notation "c ;;; k" := (bind c (fun _ => k))
  (at level 62, right associativity).

(** [checkAudioLevel] (lines 125-133): [frame] is what
    [getByteFrequencyData] writes into the data array. *)
Definition checkAudioLevel (frame : list Byte.byte) : Try unit :=
  lift (set_dataArrayRef (Some frame)) ;;;
  match average frame with
  | None => throw
  | Some avg =>
      lift (setVolume (normalizedVolume avg)) ;;;
      lift (setIsSpeaking (above_threshold (normalizedVolume avg))) ;;;
      h <- (fun w => let (h, w') := fresh_handle w in (w', Some h)) ;;
      lift (fun w => set_frames (frames (browser w) ++ [h]) w) ;;;
      lift (set_animationFrameRef (Some h))
  end.

(** [analyzeAudio] (lines 122-136). *)
Definition analyzeAudio (frame : list Byte.byte) : Try unit :=
  fun w =>
    match analyserRef (refs w), dataArrayRef (refs w) with
    | Some _, Some _ => checkAudioLevel frame w
    | _, _ => (w, Some tt)
    end.

(** Which acquisition step the environment makes fail, if any. *)
Inductive Fault :=
  | NoFault
  | GetUserMediaRejects      (* permission denied, no device *)
  | MediaRecorderThrows      (* mime type not supported *)
  | AudioContextThrows.

Definition getUserMedia (f : Fault) : Try nat :=
  match f with
  | GetUserMediaRejects => throw
  | _ => fun w => let s := length (streams (browser w)) in
                  (set_streams (streams (browser w) ++ [true]) w, Some s)
  end.

Definition newMediaRecorder (f : Fault) (s : nat) : Try nat :=
  match f with
  | MediaRecorderThrows => throw
  | _ => fun w => let m := length (recorders (browser w)) in
                  (set_recorders (recorders (browser w) ++ [mkRecorder inactive s]) w, Some m)
  end.

Definition newAudioContext (f : Fault) : Try nat :=
  match f with
  | AudioContextThrows => throw
  | _ => fun w => let c := length (contexts (browser w)) in
                  (set_contexts (contexts (browser w) ++ [running]) w, Some c)
  end.

(** The body of [try] in [startRecording] (lines 140-180). *)
Definition startRecording_try (f : Fault) (frame : list Byte.byte) : Try unit :=
  lift (fun w => match audioContextRef (refs w) with
                 | Some c => if context_open c w then context_close c w else w
                 | None => w end) ;;;
  s <- getUserMedia f ;;
  m <- newMediaRecorder f s ;;
  lift (set_mediaRecorderRef (Some m)) ;;;
  lift (set_chunksRef []) ;;;
  c <- newAudioContext f ;;
  lift (set_audioContextRef (Some c)) ;;;
  lift (set_analyserRef (Some c)) ;;;
  lift (set_dataArrayRef (Some (repeat Byte.x00 128))) ;;;
  analyzeAudio frame ;;;
  lift (recorder_start m) ;;;
  r <- gets (fun w => recognitionRef (refs w)) ;;
  match r with
  | Some r => fun w => match recognition_start r w with
                       | (w', true) => (w', Some tt)
                       | (w', false) => (w', None)
                       end
  | None => ret tt
  end ;;;
  lift (setIsRecording true).

(** [startRecording] (lines 138-185): the [catch] logs and calls [cleanup].
    The function is [async]; its two [await]s are taken as resolving with no
    other event of the component in between. *)
Definition startRecording (f : Fault) (frame : list Byte.byte) (w : World) : World :=
  match startRecording_try f frame w with
  | (w', Some _) => w'
  | (w', None) => cleanup (emit ConsoleMicrophoneError w')
  end.

(** [mediaRecorder.onstop] (lines 171-174) of recorder [m]. *)
Definition recorder_onstop (m : nat) (w : World) : World :=
  match recorders (browser w) !! m with
  | Some x => cleanup (tracks_stop (mr_stream x) w)
  | None => w
  end.

(** ** Effects and commits *)

(** The body of the first [useEffect] (lines 29-76), run for render [rd]: a
    new recognizer whose three handlers are closures of [rd]. *)
Definition recognition_effect (rd : Render) (w : World) : World :=
  if speechSupported w then
    let r := length (recognizers (browser w)) in
    set_recognitionRef (Some r)
      (set_recognizers (recognizers (browser w) ++ [mkRecognition rd false]) w)
  else w.

(** The body of the second [useEffect] (lines 83-94), run for render [rd]. *)
Definition duration_effect (rd : Render) (w : World) : World :=
  if r_isRecording rd then
    let (h, w) := fresh_handle w in
    let t := now (browser w) in
    set_durationIntervalRef (Some h)
      (set_intervals (intervals (browser w) ++ [mkInterval h t (t + 100) rd]) w)
  else w.

(** The cleanup of the second effect (lines 96-100). *)
Definition duration_effect_cleanup (w : World) : World :=
  match durationIntervalRef (refs w) with
  | Some id => clearInterval id w
  | None => w
  end.

(** React commits a render after a state change.  Both effects list
    [isRecording] among their dependencies (the other dependency,
    [onInputChange], is the parent's state setter and never changes), so when
    [isRecording] differs from its value at the last run, the cleanups of both
    effects run (the first one is [cleanup]) and then both bodies run with
    the closures of the new render. *)
Definition commit (w : World) : World :=
  if Bool.eqb (isRecording (state w)) (deps_isRecording w) then w
  else
    let rd := render_of w in
    let w := cleanup w in
    let w := duration_effect_cleanup w in
    let w := recognition_effect rd w in
    let w := duration_effect rd w in
    set_deps (r_isRecording rd) w.

Definition unmounted (speech : bool) : World :=
  mkWorld (mkState false [] false 0 0)
          (mkRefs None None [] None None None None None None)
          (mkBrowser [] [] [] [] [] [] [] 1%nat 0)
          false speech [].

(** The component after its first render and the first run of its effects. *)
Definition mount (speech : bool) : World :=
  let w := unmounted speech in
  duration_effect (render_of w) (recognition_effect (render_of w) w).

(** ** Events *)

Inductive Timer :=
  | TimeoutT (t : Timeout)
  | IntervalT (i : Interval).

Definition due (tm : Timer) : Z :=
  match tm with TimeoutT t => t_due t | IntervalT i => i_due i end.

Definition handle_of (tm : Timer) : nat :=
  match tm with TimeoutT t => t_id t | IntervalT i => i_id i end.

Definition pending (w : World) : list Timer :=
  map TimeoutT (timeouts (browser w)) ++ map IntervalT (intervals (browser w)).

(** The pending timer that fires next: the earliest due, the older handle
    first among equals. *)
Fixpoint earliest (l : list Timer) : option Timer :=
  match l with
  | [] => None
  | x :: r =>
      match earliest r with
      | None => Some x
      | Some y =>
          if (due x <? due y) || ((due x =? due y) && (handle_of x <=? handle_of y)%nat)
          then Some x else Some y
      end
  end.

(** A timer fires: a timeout leaves the pending set, an interval is
    rescheduled 100 ms later; then its callback runs. *)
Definition fire (tm : Timer) (w : World) : World :=
  match tm with
  | TimeoutT t =>
      silence_callback t
        (set_timeouts (List.filter (fun x => negb (t_id x =? t_id t)%nat) (timeouts (browser w))) w)
  | IntervalT i =>
      duration_callback i
        (set_intervals
           (map (fun x => if (i_id x =? i_id i)%nat
                          then mkInterval (i_id x) (i_startTime x) (i_due x + 100) (i_render x)
                          else x) (intervals (browser w))) w)
  end.

(** The clock advances to [until]: every timer due by then fires at its due
    time, each followed by a commit.  Timers are ideal: a timeout fires at
    its due time and an interval every 100 ms sharp.  No timer callback arms
    a timer, so the fuel that [elapse] provides covers every firing. *)
Fixpoint run_timers (fuel : nat) (until : Z) (w : World) : World :=
  match fuel with
  | O => w
  | S fuel' =>
      match earliest (pending w) with
      | Some tm =>
          if due tm <=? until
          then run_timers fuel' until
                 (commit (fire tm (set_now (Z.max (now (browser w)) (due tm)) w)))
          else set_now until w
      | None => set_now until w
      end
  end.

Definition elapse (until : Z) (w : World) : World :=
  if until <? now (browser w) then w
  else
    let ticks := Z.to_nat ((until - now (browser w)) / 100 + 2) in
    run_timers (length (timeouts (browser w))
                + length (intervals (browser w)) * ticks + 1)%nat until w.

Inductive Event :=
  | ClickStart (f : Fault) (frame : list Byte.byte)
  | ClickStop
  | Result (r : nat) (ev : SpeechRecognitionEvent)
  | Error (r : nat) (code : ErrorCode)
  | End (r : nat)
  | RecorderStopped (m : nat)
  | AnimationFrame (frame : list Byte.byte)
  | Elapse (until : Z).

(** What each event runs.  The button is the stop button exactly when
    [isRecording] (lines 257-277) and carries the function of the latest
    render; a recognizer event runs the handler of the recognizer that
    emits it. *)
Definition handle (e : Event) (w : World) : World :=
  match e with
  | ClickStart f frame =>
      if isRecording (state w) then w else startRecording f frame w
  | ClickStop =>
      if isRecording (state w) then stopRecording (render_of w) w else w
  | Result r ev =>
      match recognizers (browser w) !! r with
      | Some x => onresult (rec_render x) ev w
      | None => w
      end
  | Error r code =>
      match recognizers (browser w) !! r with
      | Some x => onerror (rec_render x) code w
      | None => w
      end
  | End r =>
      match recognizers (browser w) !! r with
      | Some x =>
          onend (rec_render x)
            (set_recognizers
               (<[r := mkRecognition (rec_render x) false]> (recognizers (browser w))) w)
      | None => w
      end
  | RecorderStopped m => recorder_onstop m w
  | AnimationFrame frame =>
      match frames (browser w) with
      | _ :: rest => fst (checkAudioLevel frame (set_frames rest w))
      | [] => w
      end
  | Elapse until => elapse until w
  end.

(** An event is handled and the resulting render is committed before the next
    event. *)
Definition dispatch (w : World) (e : Event) : World := commit (handle e w).

Definition run (es : list Event) (w : World) : World := fold_left dispatch es w.

(** Number of [onRecordingComplete] calls in a log. *)
Definition is_complete (e : Effect) : bool :=
  match e with OnRecordingComplete _ => true | _ => false end.

Definition completions (l : list Effect) : list Effect := List.filter is_complete l.

(** ** The specification's words *)

(** The fragments of a batch from its start index onward. *)
Definition fragments (ev : SpeechRecognitionEvent) : list SpeechRecognitionResult :=
  skipn (resultIndex ev) (results ev).

(** Concatenation of the final fragments of a batch, and of its interim ones. *)
Definition final_text (ev : SpeechRecognitionEvent) : jsstring :=
  concat (map res_transcript (List.filter res_isFinal (fragments ev))).

Definition interim_text (ev : SpeechRecognitionEvent) : jsstring :=
  concat (map res_transcript (List.filter (fun r => negb (res_isFinal r)) (fragments ev))).

(** Concatenation of all final fragments of a sequence of batches, in batch
    order. *)
Definition finals_seen (evs : list SpeechRecognitionEvent) : jsstring :=
  concat (map final_text evs).

(** A batch that contains a final fragment. *)
Definition has_final (ev : SpeechRecognitionEvent) : bool :=
  existsb res_isFinal (fragments ev).

(** Arithmetic mean of the bins of a buffer. *)
Definition mean (d : list Byte.byte) : Q :=
  (inject_Z (fold_right Z.add 0%Z (map bin d)) / inject_Z (Z.of_nat (length d)))%Q.

(** ** Sessions used in the statements *)

(** A sequence of batches delivered to the handler of render [rd]. *)
Definition feed (rd : Render) (evs : list SpeechRecognitionEvent) (w : World) : World :=
  fold_left (fun w ev => onresult rd ev w) evs w.

(** What the analyser reports on the first frame of the sessions below. *)
Definition quiet_frame : list Byte.byte := repeat Byte.x00 128.

(** The component right after a successful start: mounted, start clicked,
    render committed.  Recognizer 0 is the one the idle render created and
    [startRecording] started; recognizer 1 is the one the effect created for
    the recording render. *)
Definition started : World := run [ClickStart NoFault quiet_frame] (mount true).

(** An interim batch and a final batch with one fragment. *)
Definition interim (s : string) : SpeechRecognitionEvent := mkEvent 0 [mkResult (js s) false].
Definition final (s : string) : SpeechRecognitionEvent := mkEvent 0 [mkResult (js s) true].

(** Updates every 500 ms from [from] on, [n] of them, on recognizer [r]. *)
Fixpoint updates_every_500 (r : nat) (from : Z) (n : nat) : list Event :=
  match n with
  | O => []
  | S n' => Elapse from :: Result r (interim "and") :: updates_every_500 r (from + 500) n'
  end.


(** ** The timers' view of the world

    The cells that the timers, [stopRecording] and the commits read and
    write, and the same operations restricted to these cells.  The
    properties below relate them to the operations on the whole world and
    carry the reasoning about time. *)
Record View := mkView {
  v_isRecording : bool;
  v_transcript : jsstring;
  v_deps : bool;
  v_recorder : option nat;
  v_silenceRef : option nat;
  v_intervalRef : option nat;
  v_timeouts : list Timeout;
  v_intervals : list Interval;
  v_nextHandle : nat;
  v_now : Z
}.

Definition view (w : World) : View :=
  mkView (isRecording (state w)) (transcript (state w)) (deps_isRecording w)
         (mediaRecorderRef (refs w)) (silenceTimeoutRef (refs w))
         (durationIntervalRef (refs w))
         (timeouts (browser w)) (intervals (browser w))
         (nextHandle (browser w)) (now (browser w)).

Definition drop_timeout (id : nat) (l : list Timeout) : list Timeout :=
  List.filter (fun t => negb (t_id t =? id)%nat) l.

Definition drop_interval (id : nat) (l : list Interval) : list Interval :=
  List.filter (fun i => negb (i_id i =? id)%nat) l.

Definition v_clear_silence (v : View) : View :=
  match v_silenceRef v with
  | Some id =>
      mkView (v_isRecording v) (v_transcript v) (v_deps v) (v_recorder v) (v_silenceRef v)
             (v_intervalRef v) (drop_timeout id (v_timeouts v)) (v_intervals v)
             (v_nextHandle v) (v_now v)
  | None => v
  end.

Definition v_clear_interval (v : View) : View :=
  match v_intervalRef v with
  | Some id =>
      mkView (v_isRecording v) (v_transcript v) (v_deps v) (v_recorder v) (v_silenceRef v)
             (v_intervalRef v) (v_timeouts v) (drop_interval id (v_intervals v))
             (v_nextHandle v) (v_now v)
  | None => v
  end.

Definition v_cleanup (v : View) : View := v_clear_interval (v_clear_silence v).

Definition v_stopRecording (rd : Render) (v : View) : View :=
  match v_recorder v with
  | Some _ =>
      if r_isRecording rd then
        let v := v_clear_silence v in
        mkView false [] (v_deps v) (v_recorder v) (v_silenceRef v)
               (v_intervalRef v) (v_timeouts v) (v_intervals v) (v_nextHandle v) (v_now v)
      else v
  | None => v
  end.

Definition v_onresult (rd : Render) (cur : jsstring) (v : View) : View :=
  let v := v_clear_silence v in
  let h := v_nextHandle v in
  mkView (v_isRecording v) cur (v_deps v) (v_recorder v) (Some h) (v_intervalRef v)
         (v_timeouts v ++ [mkTimeout h (v_now v + SILENCE_THRESHOLD) cur rd])
         (v_intervals v) (S h) (v_now v).

Definition v_duration_effect (rd : Render) (v : View) : View :=
  if r_isRecording rd then
    let h := v_nextHandle v in
    mkView (v_isRecording v) (v_transcript v) (v_deps v) (v_recorder v) (v_silenceRef v)
           (Some h) (v_timeouts v)
           (v_intervals v ++ [mkInterval h (v_now v) (v_now v + 100) rd])
           (S h) (v_now v)
  else v.

Definition v_set_deps (b : bool) (v : View) : View :=
  mkView (v_isRecording v) (v_transcript v) b (v_recorder v) (v_silenceRef v)
         (v_intervalRef v) (v_timeouts v) (v_intervals v) (v_nextHandle v) (v_now v).

Definition v_commit (v : View) : View :=
  if Bool.eqb (v_isRecording v) (v_deps v) then v
  else
    let rd := mkRender (v_isRecording v) (v_transcript v) in
    v_set_deps (v_isRecording v)
      (v_duration_effect rd (v_clear_interval (v_cleanup v))).

Definition v_set_now (t : Z) (v : View) : View :=
  mkView (v_isRecording v) (v_transcript v) (v_deps v) (v_recorder v) (v_silenceRef v)
         (v_intervalRef v) (v_timeouts v) (v_intervals v) (v_nextHandle v) t.

Definition reschedule (i : Interval) (l : list Interval) : list Interval :=
  map (fun x => if (i_id x =? i_id i)%nat
                then mkInterval (i_id x) (i_startTime x) (i_due x + 100) (i_render x)
                else x) l.

Definition v_fire (tm : Timer) (v : View) : View :=
  match tm with
  | TimeoutT t =>
      let v := mkView (v_isRecording v) (v_transcript v) (v_deps v) (v_recorder v)
                      (v_silenceRef v) (v_intervalRef v)
                      (drop_timeout (t_id t) (v_timeouts v)) (v_intervals v)
                      (v_nextHandle v) (v_now v) in
      if truthy (trim (t_text t)) then v_stopRecording (t_render t) v else v
  | IntervalT i =>
      let v := mkView (v_isRecording v) (v_transcript v) (v_deps v) (v_recorder v)
                      (v_silenceRef v) (v_intervalRef v)
                      (v_timeouts v) (reschedule i (v_intervals v))
                      (v_nextHandle v) (v_now v) in
      if MAX_RECORDING_DURATION <=? v_now v - i_startTime i
      then v_stopRecording (i_render i) v else v
  end.

Definition v_pending (v : View) : list Timer :=
  map TimeoutT (v_timeouts v) ++ map IntervalT (v_intervals v).

Fixpoint v_run_timers (fuel : nat) (until : Z) (v : View) : View :=
  match fuel with
  | O => v
  | S fuel' =>
      match earliest (v_pending v) with
      | Some tm =>
          if due tm <=? until
          then v_run_timers fuel' until
                 (v_commit (v_fire tm (v_set_now (Z.max (v_now v) (due tm)) v)))
          else v_set_now until v
      | None => v_set_now until v
      end
  end.

(** ** Sessions in progress *)

(** A pending silence timeout ends a session when it fires if the text it
    closes over is not blank and its [stopRecording] belongs to a recording
    render. *)
Definition effective (t : Timeout) : bool :=
  truthy (trim (t_text t)) && r_isRecording (t_render t).

(** Whether the timers pending end, by time [until], a session whose
    duration interval was armed at [T0]. *)
Definition v_stops_by (T0 until : Z) (v : View) : bool :=
  (T0 + MAX_RECORDING_DURATION <=? until)
  || existsb (fun t => (t_due t <=? until) && effective t) (v_timeouts v).

(** At most one silence timeout is pending, and the reference cell holds its
    handle. *)
Definition v_tracked (v : View) : bool :=
  match v_timeouts v with
  | [] => true
  | [t] => match v_silenceRef v with
           | Some id => (id =? t_id t)%nat
           | None => false
           end
  | _ => false
  end.

(** A recording session whose duration interval was armed at [T0] by the
    recording render: the render is committed, a recorder handle exists, and
    the interval is the one pending, with its ticks at multiples of 100 ms
    from [T0], none of them past the cap yet. *)
Definition v_live (T0 : Z) (v : View) : bool :=
  v_isRecording v && v_deps v
  && match v_recorder v with Some _ => true | None => false end
  && match v_intervals v with
     | [i] =>
         (i_startTime i =? T0) && ((i_due i - T0) mod 100 =? 0)
         && (T0 <? i_due i) && (i_due i <=? T0 + MAX_RECORDING_DURATION)
         && (v_now v <=? i_due i)
         && r_isRecording (i_render i)
         && match v_intervalRef v with
            | Some id => (id =? i_id i)%nat
            | None => false
            end
     | _ => false
     end
  && v_tracked v.

(** A session that has ended, its render committed. *)
Definition v_ended (v : View) : bool :=
  negb (v_isRecording v) && negb (v_deps v)
  && match v_intervals v with [] => true | _ => false end
  && v_tracked v.

Definition stops_by (T0 until : Z) (w : World) : bool := v_stops_by T0 until (view w).
Definition live (T0 : Z) (w : World) : bool := v_live T0 (view w).
Definition ended (w : World) : bool := v_ended (view w).

(** Transcript updates and the passing of time. *)
Definition is_update (e : Event) : bool :=
  match e with
  | Result _ _ | Elapse _ => true
  | _ => false
  end.

(** ** The duration display *)

From Stdlib Require DecimalN.

(** The decimal digits of a natural number, as code units. *)
Fixpoint digits (u : Decimal.uint) : jsstring :=
  match u with
  | Decimal.Nil => []
  | Decimal.D0 u => 48%N :: digits u
  | Decimal.D1 u => 49%N :: digits u
  | Decimal.D2 u => 50%N :: digits u
  | Decimal.D3 u => 51%N :: digits u
  | Decimal.D4 u => 52%N :: digits u
  | Decimal.D5 u => 53%N :: digits u
  | Decimal.D6 u => 54%N :: digits u
  | Decimal.D7 u => 55%N :: digits u
  | Decimal.D8 u => 56%N :: digits u
  | Decimal.D9 u => 57%N :: digits u
  end.

(** [Number.prototype.toString] on an integer (below the range where
    JavaScript switches to exponent notation). *)
Definition toString (z : Z) : jsstring :=
  if z <? 0 then 45%N :: digits (N.to_uint (Z.abs_N z))
  else digits (N.to_uint (Z.to_N z)).

(** [s.padStart(n, c)] with a one-character filler. *)
Definition padStart (n : nat) (c : N) (s : jsstring) : jsstring :=
  repeat c (n - length s) ++ s.

(** [formatDuration] (lines 205-210): [Math.floor] of a quotient by a
    positive number is [Z.div], the remainder [%] takes the sign of the
    dividend as [Z.rem] does. *)
Definition formatDuration (ms : Z) : jsstring :=
  let seconds := ms / 1000 in
  let minutes := seconds / 60 in
  let remainingSeconds := Z.rem seconds 60 in
  toString minutes ++ [58%N] ++ padStart 2 48%N (toString remainingSeconds).

(** ** What [cleanup] leaves *)

(** The calls that reach the parent component. *)
Definition is_callback (e : Effect) : bool :=
  match e with
  | OnRecordingComplete _ | OnInputChange _ => true
  | _ => false
  end.

Definition callbacks (l : list Effect) : list Effect := List.filter is_callback l.

Definition drop_frame (id : nat) (l : list nat) : list nat :=
  List.filter (fun f => negb (f =? id)%nat) l.

(** The browser objects after [cleanup], cell by cell. *)
Definition cleaned (r : Refs) (b : Browser) : Browser :=
  mkBrowser
    (streams b) (recorders b)
    (match audioContextRef r with
     | Some c => match contexts b !! c with
                 | Some closed => contexts b
                 | _ => <[c := closed]> (contexts b)
                 end
     | None => contexts b
     end)
    (match recognitionRef r with
     | Some x => alter (fun x => mkRecognition (rec_render x) false) x (recognizers b)
     | None => recognizers b
     end)
    (match silenceTimeoutRef r with
     | Some id => drop_timeout id (timeouts b)
     | None => timeouts b
     end)
    (match durationIntervalRef r with
     | Some id => drop_interval id (intervals b)
     | None => intervals b
     end)
    (match animationFrameRef r with
     | Some id => drop_frame id (frames b)
     | None => frames b
     end)
    (nextHandle b) (now b).
(** * Properties *)

(** ** Recognizer batches *)

Lemma accumulate_fold (l : list SpeechRecognitionResult) (f i : jsstring) :
  fold_left accumulate l (f, i)
  = (f ++ concat (map res_transcript (List.filter res_isFinal l)),
     i ++ concat (map res_transcript (List.filter (fun r => negb (res_isFinal r)) l))).
Proof.
  revert f i. induction l as [|r l IH]; intros f i; simpl.
  - now rewrite !app_nil_r.
  - unfold accumulate at 2. destruct (res_isFinal r); simpl;
      rewrite IH; simpl; now rewrite <- app_assoc.
Qed.

Lemma scan_spec (ev : SpeechRecognitionEvent) :
  finalTranscript ev = final_text ev /\ interimTranscript ev = interim_text ev.
Proof.
  unfold finalTranscript, interimTranscript, scan, final_text, interim_text, fragments.
  now rewrite accumulate_fold.
Qed.

Lemma onresult_transcript (rd : Render) (ev : SpeechRecognitionEvent) (w : World) :
  transcript (state (onresult rd ev w)) = currentTranscript ev.
Proof.
  unfold onresult. destruct (silenceTimeoutRef (refs _)); reflexivity.
Qed.

Lemma currentTranscript_spec (ev : SpeechRecognitionEvent) :
  currentTranscript ev
  = (if truthy (final_text ev) then final_text ev else interim_text ev).
Proof.
  unfold currentTranscript, js_or. destruct (scan_spec ev) as [-> ->]. reflexivity.
Qed.

Lemma feed_snoc (rd : Render) (evs : list SpeechRecognitionEvent)
      (ev : SpeechRecognitionEvent) (w : World) :
  feed rd (evs ++ [ev]) w = onresult rd ev (feed rd evs w).
Proof. unfold feed. now rewrite fold_left_app. Qed.

(** C1: on every batch the new transcript is the one computed from the
    fragments of that batch from its start index onward, whatever the
    transcript was before: the final fragments' concatenation if it is
    non-empty, the interim fragments' concatenation otherwise. *)
Theorem batch_replaces_transcript :
  forall (rd : Render) (ev : SpeechRecognitionEvent) (w : World),
    transcript (state (onresult rd ev w))
    = (if truthy (final_text ev) then final_text ev else interim_text ev).
Proof.
  intros rd ev w. rewrite onresult_transcript. apply currentTranscript_spec.
Qed.

(** C2, as stated, fails: after a batch with the final fragment "hello "
    and a batch that adds the final fragment "world" at start index 1, the
    transcript is "world", not the concatenation of the final fragments
    seen (whether counted per batch or read off the last result list). *)
Lemma finals_not_accumulated :
  let evs := [mkEvent 0 [mkResult (js "hello ") true];
              mkEvent 1 [mkResult (js "hello ") true; mkResult (js "world") true]] in
  forallb has_final evs = true
  /\ finals_seen evs = js "hello world"
  /\ concat (map res_transcript (List.filter res_isFinal (results (List.last evs (mkEvent 0 [])))))
     = js "hello world"
  /\ transcript (state (feed (mkRender true []) evs started)) = js "world"
  /\ transcript (state (feed (mkRender true []) evs started)) <> finals_seen evs.
Proof. vm_compute. repeat split; discriminate. Qed.

(** C2, amended: after a non-empty sequence of batches the transcript is
    decided by the last batch alone: the concatenation of its final
    fragments, free of interim text, when that is non-empty, and of its
    interim fragments otherwise. *)
Theorem transcript_of_last_batch :
  forall (rd : Render) (evs : list SpeechRecognitionEvent)
         (ev : SpeechRecognitionEvent) (w : World),
    transcript (state (feed rd (evs ++ [ev]) w))
    = (if truthy (final_text ev) then final_text ev else interim_text ev).
Proof.
  intros rd evs ev w.
  rewrite feed_snoc, onresult_transcript. apply currentTranscript_spec.
Qed.

(** ** Level monitor *)

Lemma fold_left_bins (r : list Byte.byte) (x : Z) :
  fold_left (fun a b => a + bin b) r x = x + fold_right Z.add 0 (map bin r).
Proof.
  revert x. induction r as [|b r IH]; intros x; simpl.
  - lia.
  - rewrite IH. lia.
Qed.

Lemma average_mean (frame : list Byte.byte) :
  frame <> [] -> average frame = Some (mean frame).
Proof.
  destruct frame as [|b r]; [congruence | intros _].
  unfold average, mean, reduce_sum. now rewrite fold_left_bins.
Qed.

Lemma checkAudioLevel_returns (frame : list Byte.byte) (avg : Q) (w : World) :
  average frame = Some avg ->
  exists w',
    checkAudioLevel frame w = (w', Some tt)
    /\ volume (state w') = normalizedVolume avg
    /\ isSpeaking (state w') = above_threshold (normalizedVolume avg).
Proof.
  intros H. unfold checkAudioLevel. rewrite H.
  eexists. split; [reflexivity | split; reflexivity].
Qed.

Lemma above_threshold_iff (v : Q) :
  above_threshold v = true <-> (15 # 100 < v)%Q.
Proof.
  unfold above_threshold. rewrite negb_true_iff.
  split.
  - intros H. apply Qnot_le_lt. intros L.
    apply Qle_bool_iff in L. congruence.
  - intros H. destruct (Qle_bool v (15 # 100)) eqn:E; [|reflexivity].
    apply Qle_bool_iff in E. exfalso. exact (Qlt_not_le _ _ H E).
Qed.

Lemma sum_repeat (b : Byte.byte) (n : nat) :
  fold_right Z.add 0 (map bin (repeat b n)) = bin b * Z.of_nat n.
Proof.
  induction n as [|n IH]; cbn [repeat map fold_right].
  - now rewrite Z.mul_0_r.
  - rewrite IH, Nat2Z.inj_succ. ring.
Qed.

Lemma mean_repeat (b : Byte.byte) (n : nat) :
  (mean (repeat b (S n)) == inject_Z (bin b))%Q.
Proof.
  unfold mean. rewrite sum_repeat, repeat_length, inject_Z_mult.
  field. intros H.
  assert (E : Z.of_nat (S n) = 0) by (apply inject_Z_injective; exact H).
  lia.
Qed.

(** C9: on a non-empty buffer a level-monitor tick returns, sets [volume]
    to the mean of the bins divided by 128, capped at 1, and [isSpeaking]
    to whether that volume exceeds 0.15; bins all 128 give volume 1, bins all
    0 give volume 0. *)
Theorem level_tick :
  forall (frame : list Byte.byte) (w : World),
    frame <> [] ->
    exists w',
      checkAudioLevel frame w = (w', Some tt)
      /\ (volume (state w') == Qmin (mean frame / 128) 1)%Q
      /\ (isSpeaking (state w') = true <-> (15 # 100 < volume (state w'))%Q)
      /\ (forall n, frame = repeat Byte.x80 (S n) -> (volume (state w') == 1)%Q)
      /\ (forall n, frame = repeat Byte.x00 (S n) -> (volume (state w') == 0)%Q).
Proof.
  intros frame w Hne.
  destruct (checkAudioLevel_returns frame (mean frame) w (average_mean frame Hne))
    as (w' & Hrun & Hvol & Hsp).
  exists w'. split; [exact Hrun|]. rewrite Hvol, Hsp. unfold normalizedVolume.
  split; [reflexivity|]. split; [apply above_threshold_iff|]. split.
  - intros n ->. rewrite mean_repeat. reflexivity.
  - intros n ->. rewrite mean_repeat. reflexivity.
Qed.

Lemma level_tick_witness :
  exists w',
    checkAudioLevel [Byte.x80; Byte.x00] started = (w', Some tt)
    /\ (volume (state w') == Qmin (mean [Byte.x80; Byte.x00] / 128) 1)%Q
    /\ (isSpeaking (state w') = true <-> (15 # 100 < volume (state w'))%Q)
    /\ (forall n, [Byte.x80; Byte.x00] = repeat Byte.x80 (S n) -> (volume (state w') == 1)%Q)
    /\ (forall n, [Byte.x80; Byte.x00] = repeat Byte.x00 (S n) -> (volume (state w') == 0)%Q).
Proof. apply (level_tick [Byte.x80; Byte.x00] started). discriminate. Defined.

(** ** Stopping *)

(** C10: [stopRecording] called while no recording is active leaves the
    whole component as it was (state cells, reference cells, browser
    objects) and makes no call of [onRecordingComplete] or [onInputChange]:
    so for the function of any render that is not recording or with no
    recorder handle, and so for the function of the current render when the
    session is not recording or has no recorder handle. *)
Theorem stop_without_recording :
  forall (rd : Render) (w : World),
    (mediaRecorderRef (refs w) = None \/ r_isRecording rd = false ->
     stopRecording rd w = w)
    /\ (mediaRecorderRef (refs w) = None \/ isRecording (state w) = false ->
        stopRecording (render_of w) w = w).
Proof.
  assert (G : forall rd w,
             mediaRecorderRef (refs w) = None \/ r_isRecording rd = false ->
             stopRecording rd w = w).
  { intros rd w [H | H]; unfold stopRecording; rewrite H.
    - reflexivity.
    - now destruct (mediaRecorderRef (refs w)). }
  intros rd w. split; [apply G|]. intros H. apply G. exact H.
Qed.

Lemma stop_without_recording_witness :
  stopRecording (mkRender false (js "stale")) started = started
  /\ stopRecording (render_of (mount true)) (mount true) = mount true.
Proof.
  split.
  - apply (proj1 (stop_without_recording (mkRender false (js "stale")) started)).
    right. reflexivity.
  - apply (proj2 (stop_without_recording (render_of (mount true)) (mount true))).
    left. reflexivity.
Defined.

(** The stop button, whose function belongs to the latest render, delivers
    the transcript once. *)
Lemma stop_button_delivers :
  let w := run [Result 0 (final "hello"); ClickStop] started in
  isRecording (state w) = false
  /\ completions (log w) = [OnRecordingComplete (js "hello")]
  /\ transcript (state w) = [].
Proof. vm_compute. repeat split. Qed.

(** C4, on the code: a session whose accumulated transcript is "hello" and
    that ends at the duration cap delivers nothing: the interval callback
    holds the [stopRecording] of the render that started the session, whose
    [transcript] is the empty string.  The same happens when the silence
    timer of the recording render's recognizer ends the session. *)
Theorem timer_stop_drops_transcript :
  let before := run [Result 0 (final "hello"); Elapse 59999] started in
  let capped := dispatch before (Elapse 60000) in
  let silenced := run [Result 1 (final "hello"); Elapse 2000] started in
  (isRecording (state before) = true /\ transcript (state before) = js "hello")
  /\ (isRecording (state capped) = false /\ transcript (state capped) = []
      /\ completions (log capped) = [])
  /\ (isRecording (state silenced) = false /\ transcript (state silenced) = []
      /\ completions (log silenced) = []).
Proof. vm_compute. repeat split. Qed.

(** C6, on the code: the recognizer that [startRecording] starts is the one
    the idle render created; when it signals its end while the session is
    recording, its [onend] reads [isRecording = false] and restarts nothing. *)
Theorem end_of_stream_not_restarted :
  let w := dispatch started (End 0) in
  isRecording (state started) = true
  /\ In (RecognitionStart 0) (log started)
  /\ isRecording (state w) = true
  /\ log w = log started
  /\ map rec_started (recognizers (browser w)) = [false; false].
Proof. vm_compute. repeat split. right. left. reflexivity. Qed.

(** C7, on the code: a no-speech error from the recognizer that
    [startRecording] started, received while the session is recording, is
    logged and the session keeps recording: the [stopRecording] its handler
    calls reads [isRecording = false]. *)
Theorem no_speech_does_not_stop :
  let w := dispatch started (Error 0 no_speech) in
  isRecording (state started) = true
  /\ isRecording (state w) = true
  /\ log w = log started ++ [ConsoleSpeechError no_speech]
  /\ recorders (browser w) = [mkRecorder recording 0].
Proof. vm_compute. repeat split. Qed.

(** C8, on the code: when the recorder cannot be constructed (or the audio
    graph cannot be set up) after the media stream was acquired, the error
    is logged, [cleanup] runs and the session stays idle, but the tracks of
    the stream stay live; the [onstop] path of a session that did start
    stops them. *)
Theorem failed_start_leaves_tracks_live :
  let w := dispatch (mount true) (ClickStart MediaRecorderThrows quiet_frame) in
  let w' := dispatch (mount true) (ClickStart AudioContextThrows quiet_frame) in
  let ok := run [ClickStop; RecorderStopped 0] started in
  (isRecording (state w) = false
   /\ log w = [ConsoleMicrophoneError; RecognitionStop 0]
   /\ streams (browser w) = [true])
  /\ (isRecording (state w') = false /\ streams (browser w') = [true])
  /\ streams (browser ok) = [false].
Proof. vm_compute. repeat split. Qed.

(** ** The timers' view is faithful *)

(** Case analysis on the innermost [match] of the goal. *)
Ltac branch :=
  repeat match goal with
  | |- context [match ?o with _ => _ end] =>
      lazymatch o with
      | context [match _ with _ => _ end] => fail
      | _ => destruct o eqn:?
      end
  end.

Ltac reduce_hyps :=
  repeat match goal with
  | H : _ = _ |- _ => progress (cbn in H)
  end.

Ltac use_hyps :=
  repeat match goal with
  | H : ?x = _ |- context [?x] => rewrite H
  end.

Ltac views :=
  unfold view, v_cleanup, v_clear_silence, v_clear_interval, v_stopRecording,
    v_onresult, v_duration_effect, v_set_deps, v_set_now.

Ltac by_cases := branch; reduce_hyps; views; cbn; use_hyps; cbn; reflexivity.

Lemma view_cleanup (w : World) : view (cleanup w) = v_cleanup (view w).
Proof. unfold cleanup. cbv zeta. by_cases. Qed.

Lemma view_stopRecording (rd : Render) (w : World) :
  view (stopRecording rd w) = v_stopRecording rd (view w).
Proof. unfold stopRecording. cbv zeta. by_cases. Qed.

Lemma view_onresult (rd : Render) (ev : SpeechRecognitionEvent) (w : World) :
  view (onresult rd ev w) = v_onresult rd (currentTranscript ev) (view w).
Proof. unfold onresult, fresh_handle. cbv zeta. by_cases. Qed.

Lemma view_duration_effect_cleanup (w : World) :
  view (duration_effect_cleanup w) = v_clear_interval (view w).
Proof. unfold duration_effect_cleanup. by_cases. Qed.

Lemma view_recognition_effect (rd : Render) (w : World) :
  view (recognition_effect rd w) = view w.
Proof. unfold recognition_effect. by_cases. Qed.

Lemma view_duration_effect (rd : Render) (w : World) :
  view (duration_effect rd w) = v_duration_effect rd (view w).
Proof. unfold duration_effect, fresh_handle. cbv zeta. by_cases. Qed.

Lemma view_commit (w : World) : view (commit w) = v_commit (view w).
Proof.
  unfold commit, v_commit. cbn [view v_isRecording v_deps v_transcript].
  destruct (Bool.eqb _ _); [reflexivity|]. cbv zeta.
  change (view (set_deps (r_isRecording (render_of w))
                  (duration_effect (render_of w)
                     (recognition_effect (render_of w)
                        (duration_effect_cleanup (cleanup w))))))
    with (v_set_deps (isRecording (state w))
            (view (duration_effect (render_of w)
                     (recognition_effect (render_of w)
                        (duration_effect_cleanup (cleanup w)))))).
  now rewrite view_duration_effect, view_recognition_effect,
    view_duration_effect_cleanup, view_cleanup.
Qed.

Lemma view_fire (tm : Timer) (w : World) : view (fire tm w) = v_fire tm (view w).
Proof.
  destruct tm as [t | i]; unfold fire, v_fire.
  - unfold silence_callback. destruct (truthy (trim (t_text t))); [|reflexivity].
    now rewrite view_stopRecording.
  - unfold duration_callback. cbv zeta.
    change (now (browser (set_intervals _ w))) with (now (browser w)).
    cbn [view v_now].
    destruct (MAX_RECORDING_DURATION <=? now (browser w) - i_startTime i); [|reflexivity].
    now rewrite view_stopRecording.
Qed.

Lemma view_run_timers (fuel : nat) (until : Z) (w : World) :
  view (run_timers fuel until w) = v_run_timers fuel until (view w).
Proof.
  revert w. induction fuel as [|fuel IH]; intros w; [reflexivity|].
  cbn [run_timers v_run_timers].
  change (v_pending (view w)) with (pending w).
  destruct (earliest (pending w)) as [tm|]; [|reflexivity].
  destruct (due tm <=? until); [|reflexivity].
  rewrite IH, view_commit, view_fire. reflexivity.
Qed.

(** ** Callbacks by render *)

Lemma completions_app (l1 l2 : list Effect) :
  completions (l1 ++ l2) = completions l1 ++ completions l2.
Proof. unfold completions. apply List.filter_app. Qed.

(** A call of [stopRecording] that passes its guard delivers the transcript
    of its render once if it is not blank, never otherwise, and clears the
    transcript cell after the delivery. *)
Lemma stopRecording_delivers (rd : Render) (w : World) (m : nat) :
  mediaRecorderRef (refs w) = Some m -> r_isRecording rd = true ->
  isRecording (state (stopRecording rd w)) = false
  /\ transcript (state (stopRecording rd w)) = []
  /\ completions (log (stopRecording rd w))
     = completions (log w)
       ++ (if truthy (trim (r_transcript rd))
           then [OnRecordingComplete (r_transcript rd)] else []).
Proof.
  intros Hm Hr. unfold stopRecording. rewrite Hm, Hr. cbv zeta.
  branch; reduce_hyps; cbn; rewrite ?completions_app; cbn; rewrite ?app_nil_r;
    repeat split; reflexivity.
Qed.

(** On a callback of a recording render, with a recorder handle, a
    no-speech error stops the session; any other error is only logged. *)
Lemma onerror_recording_render (rd : Render) (code : ErrorCode) (w : World) (m : nat) :
  mediaRecorderRef (refs w) = Some m -> r_isRecording rd = true ->
  (code = no_speech -> isRecording (state (onerror rd code w)) = false)
  /\ (code <> no_speech -> onerror rd code w = emit (ConsoleSpeechError code) w).
Proof.
  intros Hm Hr. unfold onerror. cbv zeta. split.
  - intros ->. cbn [is_no_speech].
    now destruct (stopRecording_delivers rd (emit (ConsoleSpeechError no_speech) w) m Hm Hr).
  - intros Hc. destruct code; try reflexivity. congruence.
Qed.

(** On a callback of a recording render, the end of the stream restarts the
    current recognizer if it is not running; on one of an idle render it does
    nothing. *)
Lemma onend_by_render (rd : Render) (w : World) (r : nat) (x : SpeechRecognition) :
  recognitionRef (refs w) = Some r ->
  recognizers (browser w) !! r = Some x -> rec_started x = false ->
  (r_isRecording rd = true ->
     log (onend rd w) = log w ++ [RecognitionStart r]
     /\ state (onend rd w) = state w
     /\ recognizers (browser (onend rd w)) !! r = Some (mkRecognition (rec_render x) true))
  /\ (r_isRecording rd = false -> onend rd w = w).
Proof.
  intros Hr Hx Hs. unfold onend, recognition_start. split; intros ->; [|reflexivity].
  rewrite Hr, Hx, Hs. cbn. repeat split.
  apply list_lookup_insert_eq. now apply lookup_lt_Some in Hx.
Qed.

(** ** Timers on the view *)

Ltac split_bools :=
  repeat match goal with
  | H : _ && _ = true |- _ => apply andb_true_iff in H; destruct H
  | H : negb _ = true |- _ => apply negb_true_iff in H
  | H : (_ =? _)%nat = true |- _ => apply Nat.eqb_eq in H
  | H : (_ =? _) = true |- _ => apply Z.eqb_eq in H
  | H : (_ <=? _) = true |- _ => apply Z.leb_le in H
  | H : (_ <? _) = true |- _ => apply Z.ltb_lt in H
  | H : (_ <=? _) = false |- _ => apply Z.leb_gt in H
  | H : (_ <? _) = false |- _ => apply Z.ltb_ge in H
  end.

Ltac arith := unfold MAX_RECORDING_DURATION in *; Z.div_mod_to_equations; lia.

Ltac solve_bools :=
  repeat match goal with
  | |- _ && _ = true => apply andb_true_intro; split
  | |- negb _ = true => apply negb_true_iff
  | |- (_ =? _)%nat = true => apply Nat.eqb_eq
  | |- (_ =? _) = true => apply Z.eqb_eq
  | |- (_ <=? _) = true => apply Z.leb_le
  | |- (_ <? _) = true => apply Z.ltb_lt
  | |- (_ <=? _) = false => apply Z.leb_gt
  | |- (_ <? _) = false => apply Z.ltb_ge
  end;
  try reflexivity; try assumption; try arith.

Lemma v_tracked_inv (v : View) :
  v_tracked v = true ->
  v_timeouts v = []
  \/ exists t, v_timeouts v = [t] /\ v_silenceRef v = Some (t_id t).
Proof.
  unfold v_tracked. destruct (v_timeouts v) as [|t [|? ?]]; try discriminate; auto.
  destruct (v_silenceRef v) as [id|]; [|discriminate].
  intros H. split_bools. subst. right. eauto.
Qed.

(** What [v_live] says, as facts. *)
Lemma v_live_inv (T0 : Z) (v : View) :
  v_live T0 v = true ->
  exists m i,
    v_isRecording v = true /\ v_deps v = true /\ v_recorder v = Some m
    /\ v_intervals v = [i] /\ i_startTime i = T0
    /\ (i_due i - T0) mod 100 = 0 /\ T0 < i_due i <= T0 + 60000
    /\ v_now v <= i_due i /\ r_isRecording (i_render i) = true
    /\ v_intervalRef v = Some (i_id i)
    /\ v_tracked v = true.
Proof.
  unfold v_live, MAX_RECORDING_DURATION. intros H. split_bools.
  destruct (v_recorder v) as [m|]; [|discriminate].
  destruct (v_intervals v) as [|i [|? ?]]; try discriminate.
  split_bools.
  destruct (v_intervalRef v) as [id|]; [|discriminate].
  split_bools. subst id.
  exists m, i. repeat split; auto; lia.
Qed.

Lemma v_ended_inv (v : View) :
  v_ended v = true ->
  v_isRecording v = false /\ v_deps v = false /\ v_intervals v = []
  /\ v_tracked v = true.
Proof.
  unfold v_ended. intros H. split_bools.
  destruct (v_intervals v); [auto | discriminate].
Qed.

(** Expose the cells of a live view. *)
Ltac open_live L v i :=
  let m := fresh "m" in
  let i' := fresh "i" in
  let Hi := fresh "Hi" in
  destruct (v_live_inv _ _ L) as (m & i' & ? & ? & ? & Hi & ? & ? & ? & ? & ? & ? & ?);
  try (match goal with H : v_intervals v = [i] |- _ =>
         rewrite H in Hi; injection Hi as <- end);
  destruct v as [rec tr deps mref sref iref tos ivs nh nw]; cbn in *; subst.


(** The view operations on explicit cells. *)
Lemma v_stopRecording_on (rd : Render) rec tr deps m sref iref tos ivs nh nw :
  r_isRecording rd = true ->
  v_stopRecording rd (mkView rec tr deps (Some m) sref iref tos ivs nh nw)
  = mkView false [] deps (Some m) sref iref
      (match sref with Some id => drop_timeout id tos | None => tos end) ivs nh nw.
Proof.
  intros H. unfold v_stopRecording, v_clear_silence. cbn. rewrite H.
  now destruct sref.
Qed.

Lemma v_stopRecording_off (rd : Render) (v : View) :
  r_isRecording rd = false -> v_stopRecording rd v = v.
Proof. intros H. unfold v_stopRecording. rewrite H. now destruct (v_recorder v). Qed.

Lemma v_commit_same (v : View) :
  v_isRecording v = v_deps v -> v_commit v = v.
Proof. intros H. unfold v_commit. rewrite H. now rewrite Bool.eqb_reflx. Qed.

Lemma v_commit_stop tr mref sref iref tos ivs nh nw :
  v_commit (mkView false tr true mref sref iref tos ivs nh nw)
  = mkView false tr false mref sref iref
      (match sref with Some id => drop_timeout id tos | None => tos end)
      (match iref with
       | Some id => drop_interval id (drop_interval id ivs)
       | None => ivs
       end) nh nw.
Proof.
  unfold v_commit, v_cleanup, v_clear_silence, v_clear_interval, v_duration_effect, v_set_deps.
  cbn. destruct sref, iref; reflexivity.
Qed.

Lemma drop_timeout_self (t : Timeout) : drop_timeout (t_id t) [t] = [].
Proof. unfold drop_timeout. cbn. now rewrite Nat.eqb_refl. Qed.

Lemma drop_interval_self (i : Interval) : drop_interval (i_id i) [i] = [].
Proof. unfold drop_interval. cbn. now rewrite Nat.eqb_refl. Qed.

Lemma v_tick_continue (T0 : Z) (v : View) (i : Interval) :
  v_live T0 v = true -> v_intervals v = [i] -> i_due i - T0 < 60000 ->
  let v1 := v_commit (v_fire (IntervalT i) (v_set_now (Z.max (v_now v) (i_due i)) v)) in
  v_live T0 v1 = true /\ v_timeouts v1 = v_timeouts v
  /\ v_intervals v1 = [mkInterval (i_id i) (i_startTime i) (i_due i + 100) (i_render i)]
  /\ v_now v1 = i_due i.
Proof.
  intros L Hi Hd. open_live L v i.
  unfold v_fire, v_set_now, reschedule. cbn -[v_stopRecording v_commit].
  rewrite Nat.eqb_refl, Z.max_r by lia.
  replace (MAX_RECORDING_DURATION <=? i_due i - i_startTime i) with false
    by (symmetry; solve_bools).
  rewrite v_commit_same by reflexivity.
  cbn. repeat split. unfold v_live, v_tracked in *. cbn in *. solve_bools.
Qed.

Lemma v_tick_cap (T0 : Z) (v : View) (i : Interval) :
  v_live T0 v = true -> v_intervals v = [i] -> 60000 <= i_due i - T0 ->
  let v1 := v_commit (v_fire (IntervalT i) (v_set_now (Z.max (v_now v) (i_due i)) v)) in
  v_ended v1 = true /\ v_timeouts v1 = [] /\ v_now v1 = i_due i.
Proof.
  intros L Hi Hd. open_live L v i.
  unfold v_fire, v_set_now, reschedule. cbn -[v_stopRecording v_commit].
  rewrite Nat.eqb_refl, Z.max_r by lia.
  replace (MAX_RECORDING_DURATION <=? i_due i - i_startTime i) with true
    by (symmetry; solve_bools).
  rewrite v_stopRecording_on by assumption. rewrite v_commit_stop.
  match goal with H : v_tracked _ = true |- _ =>
    destruct (v_tracked_inv _ H) as [E | (t & E & E')]; cbn in E; try cbn in E'; subst end;
  try destruct sref;
  unfold drop_interval, drop_timeout; cbn; rewrite ?Nat.eqb_refl; cbn;
  repeat split.
Qed.

Lemma v_timeout_effective (T0 : Z) (v : View) (t : Timeout) (n : Z) :
  v_live T0 v = true -> v_timeouts v = [t] -> effective t = true ->
  let v1 := v_commit (v_fire (TimeoutT t) (v_set_now n v)) in
  v_ended v1 = true /\ v_timeouts v1 = [] /\ v_now v1 = n.
Proof.
  intros L Ht He. apply andb_true_iff in He. destruct He as [Hx Hr].
  open_live L v i.
  unfold v_fire, v_set_now. cbn -[v_stopRecording v_commit drop_timeout].
  rewrite Nat.eqb_refl. cbn [negb].
  rewrite Hx, v_stopRecording_on, v_commit_stop by assumption.
  destruct sref; unfold drop_interval, drop_timeout; cbn; rewrite ?Nat.eqb_refl; cbn;
    repeat split.
Qed.

Lemma v_timeout_idle (T0 : Z) (v : View) (t : Timeout) (i : Interval) (n : Z) :
  v_live T0 v = true -> v_timeouts v = [t] -> v_intervals v = [i] ->
  effective t = false -> n <= i_due i ->
  let v1 := v_commit (v_fire (TimeoutT t) (v_set_now n v)) in
  v_live T0 v1 = true /\ v_timeouts v1 = [] /\ v_intervals v1 = [i] /\ v_now v1 = n.
Proof.
  intros L Ht Hi He Hn. open_live L v i.
  unfold v_fire, v_set_now. cbn -[v_stopRecording v_commit drop_timeout].
  rewrite Nat.eqb_refl. cbn [negb].
  assert (E : (if truthy (trim (t_text t))
               then v_stopRecording (t_render t)
                      (mkView true tr true (Some m) sref (Some (i_id i)) [] [i] nh n)
               else mkView true tr true (Some m) sref (Some (i_id i)) [] [i] nh n)
              = mkView true tr true (Some m) sref (Some (i_id i)) [] [i] nh n).
  { unfold effective in He. destruct (truthy (trim (t_text t))); [|reflexivity].
    cbn in He. now apply v_stopRecording_off. }
  rewrite E, v_commit_same by reflexivity.
  cbn. repeat split. unfold v_live, v_tracked in *. cbn in *. solve_bools.
Qed.

Lemma v_ended_timeout (v : View) (t : Timeout) (n : Z) :
  v_ended v = true -> v_timeouts v = [t] ->
  let v1 := v_commit (v_fire (TimeoutT t) (v_set_now n v)) in
  v_ended v1 = true /\ v_timeouts v1 = [] /\ v_now v1 = n.
Proof.
  intros E Ht. destruct (v_ended_inv _ E) as (H1 & H2 & H3 & H4).
  destruct v as [rec tr deps mref sref iref tos ivs nh nw]. cbn in *. subst.
  unfold v_fire, v_set_now. cbn -[v_stopRecording v_commit drop_timeout].
  rewrite Nat.eqb_refl. cbn [negb].
  destruct (truthy (trim (t_text t))).
  - unfold v_stopRecording, v_clear_silence. cbn -[v_commit].
    destruct mref, (r_isRecording (t_render t)), sref; cbn -[v_commit];
      (rewrite v_commit_same by reflexivity); cbn; repeat split.
  - rewrite v_commit_same by reflexivity. cbn. repeat split.
Qed.

Lemma v_set_now_live (T0 until : Z) (v : View) (i : Interval) :
  v_live T0 v = true -> v_intervals v = [i] -> until <= i_due i ->
  v_live T0 (v_set_now until v) = true.
Proof.
  intros L Hi Hu. open_live L v i.
  unfold v_live, v_tracked in *. cbn in *. solve_bools.
Qed.

Lemma v_set_now_ended (until : Z) (v : View) :
  v_ended v = true -> v_ended (v_set_now until v) = true.
Proof. intros E. exact E. Qed.

(** In an ended session the pending timeout, if any, fires without effect
    on the session. *)
Lemma v_run_ended (fuel : nat) (until : Z) (v : View) :
  v_ended v = true -> (length (v_timeouts v) < fuel)%nat ->
  v_ended (v_run_timers fuel until v) = true
  /\ v_now (v_run_timers fuel until v) = until.
Proof.
  intros E Hf. destruct (v_ended_inv _ E) as (_ & _ & Hi & Htr).
  destruct fuel as [|fuel]; [lia|]. cbn [v_run_timers]. unfold v_pending.
  destruct (v_tracked_inv _ Htr) as [Ht | (t & Ht & _)]; rewrite Ht, Hi in *; cbn [map app earliest].
  - split; [apply v_set_now_ended; exact E | reflexivity].
  - cbn [due]. destruct (t_due t <=? until); [|split; [exact E | reflexivity]].
    destruct (v_ended_timeout v t (Z.max (v_now v) (t_due t)) E Ht) as (E1 & T1 & _).
    set (v1 := v_commit _) in *.
    cbn in Hf. destruct fuel as [|fuel]; [lia|]. cbn [v_run_timers]. unfold v_pending.
    destruct (v_ended_inv _ E1) as (_ & _ & Hi1 & _). rewrite T1, Hi1. cbn.
    split; [exact E1 | reflexivity].
Qed.

Lemma v_stops_by_none (T0 until : Z) (v : View) :
  v_timeouts v = [] ->
  v_stops_by T0 until v = (T0 + MAX_RECORDING_DURATION <=? until).
Proof. intros H. unfold v_stops_by. rewrite H. cbn. apply orb_false_r. Qed.

Lemma v_stops_by_one (T0 until : Z) (v : View) (t : Timeout) :
  v_timeouts v = [t] ->
  v_stops_by T0 until v
  = (T0 + MAX_RECORDING_DURATION <=? until) || (t_due t <=? until) && effective t.
Proof. intros H. unfold v_stops_by. rewrite H. cbn. now rewrite orb_false_r. Qed.

(** The run of the timers of a live session up to [until]: the session ends
    exactly when [v_stops_by] says so. *)
Lemma v_run_live (fuel : nat) :
  forall (T0 until : Z) (v : View) (i : Interval),
    v_live T0 v = true -> v_intervals v = [i] ->
    (length (v_timeouts v) + Z.to_nat ((until - i_due i) / 100 + 1) < fuel)%nat ->
    v_now (v_run_timers fuel until v) = until
    /\ (if v_stops_by T0 until v
        then v_ended (v_run_timers fuel until v) = true
        else v_live T0 (v_run_timers fuel until v) = true).
Proof.
  induction fuel as [|fuel IH]; intros T0 until v i L Hi Hf; [lia|].
  destruct (v_live_inv _ _ L)
    as (m & i' & _ & _ & _ & Hi' & Hs & Hmod & Hd & Hn & _ & _ & Htr).
  rewrite Hi in Hi'. injection Hi' as <-.
  cbn [v_run_timers]. unfold v_pending. rewrite Hi.
  assert (Tick : i_due i <= until ->
            (length (v_timeouts v) + Z.to_nat ((until - i_due i) / 100 + 1) < S fuel)%nat ->
            let v1 := v_commit (v_fire (IntervalT i)
                                  (v_set_now (Z.max (v_now v) (i_due i)) v)) in
            v_now (v_run_timers fuel until v1) = until
            /\ (if v_stops_by T0 until v
                then v_ended (v_run_timers fuel until v1) = true
                else v_live T0 (v_run_timers fuel until v1) = true)).
  { intros Hle Hfuel v1.
    destruct (Z_lt_le_dec (i_due i - T0) 60000) as [Hlt | Hge].
    - destruct (v_tick_continue T0 v i L Hi Hlt) as (L1 & T1 & I1 & _).
      fold v1 in L1, T1, I1.
      replace (v_stops_by T0 until v) with (v_stops_by T0 until v1)
        by (unfold v_stops_by; now rewrite T1).
      apply (IH T0 until v1 _ L1 I1). rewrite T1. cbn [i_due].
      assert (Z.to_nat ((until - (i_due i + 100)) / 100 + 1)
              < Z.to_nat ((until - i_due i) / 100 + 1))%nat by arith.
      lia.
    - destruct (v_tick_cap T0 v i L Hi Hge) as (E1 & T1 & _). fold v1 in E1, T1.
      assert (S : v_stops_by T0 until v = true).
      { unfold v_stops_by. apply orb_true_iff. left. solve_bools. }
      rewrite S.
      assert (1 <= Z.to_nat ((until - i_due i) / 100 + 1))%nat by arith.
      destruct (v_run_ended fuel until v1 E1) as [A B]; [rewrite T1; cbn; lia | auto]. }
  destruct (v_tracked_inv _ Htr) as [Ht | (t & Ht & _)]; rewrite Ht in *;
    cbn [map app earliest due handle_of].
  - destruct (i_due i <=? until) eqn:Hu; split_bools.
    + apply Tick; assumption.
    + split; [reflexivity|].
      rewrite (v_stops_by_none _ _ _ Ht).
      replace (T0 + MAX_RECORDING_DURATION <=? until) with false by (symmetry; solve_bools).
      apply (v_set_now_live T0 until v i L Hi). lia.
  - rewrite (v_stops_by_one _ _ _ _ Ht) in *.
    destruct ((t_due t <? i_due i) || (t_due t =? i_due i) && (t_id t <=? i_id i)%nat) eqn:Hc;
      cbn [due].
    + assert (Hti : t_due t <= i_due i).
      { apply orb_true_iff in Hc. destruct Hc as [Hc | Hc]; split_bools; lia. }
      destruct (t_due t <=? until) eqn:Hu; split_bools.
      * set (n := Z.max (v_now v) (t_due t)).
        destruct (effective t) eqn:He.
        -- destruct (v_timeout_effective T0 v t n L Ht He) as (E1 & T1 & _).
           rewrite orb_true_r.
           destruct (v_run_ended fuel until _ E1) as [A B];
             [rewrite T1; cbn in *; lia | auto].
        -- destruct (v_timeout_idle T0 v t i n L Ht Hi He) as (L1 & T1 & I1 & _);
             [unfold n; lia|].
           rewrite andb_false_r, orb_false_r.
           rewrite <- (v_stops_by_none T0 until _ T1).
           apply (IH T0 until _ _ L1 I1). rewrite T1. cbn in *. lia.
      * split; [reflexivity|].
        replace (T0 + MAX_RECORDING_DURATION <=? until) with false by (symmetry; solve_bools).
        cbn [orb andb].
        apply (v_set_now_live T0 until v i L Hi). lia.
    + assert (Hit : i_due i <= t_due t).
      { apply orb_false_iff in Hc. destruct Hc as [Hc _]. split_bools. lia. }
      destruct (i_due i <=? until) eqn:Hu; split_bools.
      * apply Tick; assumption.
      * split; [reflexivity|].
        replace (T0 + MAX_RECORDING_DURATION <=? until) with false by (symmetry; solve_bools).
        replace (t_due t <=? until) with false by (symmetry; solve_bools).
        cbn [orb andb].
        apply (v_set_now_live T0 until v i L Hi). lia.
Qed.

Lemma v_onresult_live (T0 : Z) (rd : Render) (cur : jsstring) (v : View) :
  v_live T0 v = true ->
  v_live T0 (v_onresult rd cur v) = true
  /\ v_timeouts (v_onresult rd cur v)
     = [mkTimeout (v_nextHandle v) (v_now v + SILENCE_THRESHOLD) cur rd]
  /\ v_silenceRef (v_onresult rd cur v) = Some (v_nextHandle v)
  /\ v_now (v_onresult rd cur v) = v_now v.
Proof.
  intros L. open_live L v i.
  match goal with H : v_tracked _ = true |- _ =>
    destruct (v_tracked_inv _ H) as [E | (t & E & E')]; cbn in E; try cbn in E'; subst end;
  try destruct sref;
  unfold v_onresult, v_clear_silence, drop_timeout; cbn; rewrite ?Nat.eqb_refl; cbn;
  repeat split; unfold v_live, v_tracked in *; cbn in *; solve_bools.
Qed.

Lemma v_onresult_ended (rd : Render) (cur : jsstring) (v : View) :
  v_ended v = true -> v_ended (v_onresult rd cur v) = true.
Proof.
  intros E. destruct (v_ended_inv _ E) as (H1 & H2 & H3 & H4).
  destruct v as [rec tr deps mref sref iref tos ivs nh nw]. cbn in *. subst.
  destruct (v_tracked_inv _ H4) as [E' | (t & E' & E'')]; cbn in E'; try cbn in E''; subst;
  try destruct sref;
  unfold v_onresult, v_clear_silence, drop_timeout; cbn; rewrite ?Nat.eqb_refl; cbn;
  unfold v_ended, v_tracked; cbn; solve_bools.
Qed.

(** ** Timers on the world *)

Lemma commit_settled (w : World) :
  isRecording (state w) = deps_isRecording w -> commit w = w.
Proof. intros H. unfold commit. rewrite H. now rewrite Bool.eqb_reflx. Qed.

Lemma live_recording (T0 : Z) (w : World) :
  live T0 w = true -> isRecording (state w) = true /\ deps_isRecording w = true.
Proof.
  intros L. destruct (v_live_inv _ _ L) as (m & i & H1 & H2 & _). auto.
Qed.

Lemma ended_idle (w : World) :
  ended w = true -> isRecording (state w) = false /\ deps_isRecording w = false.
Proof. intros E. destruct (v_ended_inv _ E) as (H1 & H2 & _). auto. Qed.

Lemma elapse_live (T0 until : Z) (w : World) :
  live T0 w = true -> now (browser w) <= until ->
  now (browser (elapse until w)) = until
  /\ (if stops_by T0 until w
      then ended (elapse until w) = true
      else live T0 (elapse until w) = true).
Proof.
  intros L Hn. unfold elapse.
  replace (until <? now (browser w)) with false by (symmetry; solve_bools).
  cbv zeta.
  destruct (v_live_inv _ _ L)
    as (m & i & _ & _ & _ & Hi & _ & _ & _ & Hd & _ & _ & _).
  change (now (browser w)) with (v_now (view w)) in *.
  change (intervals (browser w)) with (v_intervals (view w)).
  change (timeouts (browser w)) with (v_timeouts (view w)).
  set (fuel := (length _ + _ * _ + 1)%nat).
  unfold live, ended, stops_by.
  change (now (browser (run_timers fuel until w)))
    with (v_now (view (run_timers fuel until w))).
  rewrite !view_run_timers.
  apply (v_run_live fuel T0 until (view w) i L Hi).
  unfold fuel. rewrite Hi. cbn [length].
  assert (Z.to_nat ((until - i_due i) / 100 + 1)
          <= Z.to_nat ((until - v_now (view w)) / 100 + 2))%nat by arith.
  lia.
Qed.

Lemma elapse_ended (until : Z) (w : World) :
  ended w = true -> ended (elapse until w) = true.
Proof.
  intros E. unfold elapse. destruct (until <? now (browser w)); [exact E|].
  cbv zeta. unfold ended. rewrite view_run_timers.
  apply v_run_ended; [exact E|].
  cbn [view v_timeouts].
  generalize (length (intervals (browser w))
              * Z.to_nat ((until - now (browser w)) / 100 + 2))%nat.
  intros k. lia.
Qed.

Lemma onresult_live (T0 : Z) (rd : Render) (ev : SpeechRecognitionEvent) (w : World) :
  live T0 w = true ->
  live T0 (onresult rd ev w) = true
  /\ timeouts (browser (onresult rd ev w))
     = [mkTimeout (nextHandle (browser w)) (now (browser w) + SILENCE_THRESHOLD)
                  (currentTranscript ev) rd]
  /\ silenceTimeoutRef (refs (onresult rd ev w)) = Some (nextHandle (browser w))
  /\ now (browser (onresult rd ev w)) = now (browser w).
Proof.
  intros L. unfold live.
  change (timeouts (browser ?x)) with (v_timeouts (view x)).
  change (silenceTimeoutRef (refs ?x)) with (v_silenceRef (view x)).
  change (now (browser (onresult rd ev w))) with (v_now (view (onresult rd ev w))).
  rewrite view_onresult. apply (v_onresult_live T0 rd _ (view w) L).
Qed.

Lemma onresult_ended (rd : Render) (ev : SpeechRecognitionEvent) (w : World) :
  ended w = true -> ended (onresult rd ev w) = true.
Proof.
  intros E. unfold ended. rewrite view_onresult. now apply v_onresult_ended.
Qed.

(** Transcript updates and the passing of time keep a session live or
    ended. *)
Lemma dispatch_update (T0 : Z) (w : World) (e : Event) :
  is_update e = true ->
  live T0 w = true \/ ended w = true ->
  live T0 (dispatch w e) = true \/ ended (dispatch w e) = true.
Proof.
  intros He I.
  assert (Settle : forall x, live T0 x = true \/ ended x = true ->
                             live T0 (commit x) = true \/ ended (commit x) = true).
  { intros x Hx. rewrite commit_settled; [exact Hx|].
    destruct Hx as [Hx | Hx].
    - destruct (live_recording _ _ Hx) as [-> ->]. reflexivity.
    - destruct (ended_idle _ Hx) as [-> ->]. reflexivity. }
  unfold dispatch. apply Settle.
  destruct e; try discriminate; cbn [handle].
  - destruct (recognizers (browser w) !! r); [|exact I].
    destruct I as [L | E].
    + left. apply (onresult_live T0 _ ev w L).
    + right. now apply onresult_ended.
  - destruct I as [L | E].
    + destruct (Z_le_gt_dec (now (browser w)) until) as [Hn | Hn].
      * destruct (elapse_live T0 until w L Hn) as [_ H].
        destruct (stops_by T0 until w); auto.
      * left. unfold elapse.
        replace (until <? now (browser w)) with true by (symmetry; solve_bools).
        exact L.
    + right. now apply elapse_ended.
Qed.

Lemma run_updates (T0 : Z) (es : list Event) (w : World) :
  forallb is_update es = true ->
  live T0 w = true \/ ended w = true ->
  live T0 (run es w) = true \/ ended (run es w) = true.
Proof.
  revert w. induction es as [|e es IH]; intros w Hes I; [exact I|].
  cbn in Hes. apply andb_true_iff in Hes. destruct Hes as [He Hes].
  cbn [run fold_left]. apply IH; [exact Hes|].
  now apply dispatch_update.
Qed.

Lemma started_live : live 0 started = true.
Proof. vm_compute. reflexivity. Qed.

Lemma started_now : now (browser started) = 0.
Proof. vm_compute. reflexivity. Qed.

(** An update in a live session, then nothing but time: the session is
    still recording at [until] unless the new timeout was due by then and
    ends it. *)
Lemma update_then_wait (T0 until : Z) (rd : Render) (ev : SpeechRecognitionEvent)
      (w : World) :
  live T0 w = true -> now (browser w) <= until < T0 + 60000 ->
  let w' := elapse until (onresult rd ev w) in
  now (browser w') = until
  /\ (if (now (browser w) + 2000 <=? until)
         && (truthy (trim (currentTranscript ev)) && r_isRecording rd)
      then ended w' = true else live T0 w' = true).
Proof.
  intros L Hu w'.
  destruct (onresult_live T0 rd ev w L) as (L1 & T1 & _ & N1).
  destruct (elapse_live T0 until (onresult rd ev w) L1) as [Hn H]; [rewrite N1; lia|].
  split; [exact Hn|].
  unfold stops_by in H.
  rewrite (v_stops_by_one T0 until (view (onresult rd ev w)) _ T1) in H.
  cbn [t_due effective t_text t_render] in H. unfold effective in H.
  cbn [t_text t_render] in H. unfold SILENCE_THRESHOLD in H.
  replace (T0 + MAX_RECORDING_DURATION <=? until) with false in H by (symmetry; solve_bools).
  exact H.
Qed.

(** ** Silence timer and duration cap *)

(** C3, on the code: every update re-arms the silence timeout to 2000 ms
    after the update, but the timeout armed by a handler of an idle render
    never ends the session, and the recognizer that [startRecording] starts
    is the one the idle render created (the recognizer of the recording
    render is never started): the [stopRecording] its timeout calls reads
    [isRecording = false].  With updates at 0 ms and 1000 ms from the started
    recognizer, the second not blank, the timeout fires at 3000 ms and the
    session is still recording then, and until the duration cap. *)
Theorem silence_does_not_stop :
  (forall (T0 : Z) (rd : Render) (ev : SpeechRecognitionEvent) (w : World) (until : Z),
      live T0 w = true -> r_isRecording rd = false ->
      now (browser w) <= until < T0 + 60000 ->
      timeouts (browser (onresult rd ev w))
      = [mkTimeout (nextHandle (browser w)) (now (browser w) + 2000)
                   (currentTranscript ev) rd]
      /\ isRecording (state (elapse until (onresult rd ev w))) = true)
  /\ (let armed :=
        run [Result 0 (interim "hel"); Elapse 1000; Result 0 (final "hello")] started in
      (isRecording (state started) = true
       /\ In (RecognitionStart 0) (log started)
       /\ ~ In (RecognitionStart 1) (log started)
       /\ map rec_render (recognizers (browser started))
          = [mkRender false []; mkRender true []])
      /\ (transcript (state armed) = js "hello"
          /\ map t_due (timeouts (browser armed)) = [3000])
      /\ isRecording (state (dispatch armed (Elapse 2500))) = true
      /\ (isRecording (state (dispatch armed (Elapse 3000))) = true
          /\ timeouts (browser (dispatch armed (Elapse 3000))) = []
          /\ completions (log (dispatch armed (Elapse 3000))) = [])
      /\ isRecording (state (dispatch armed (Elapse 59999))) = true).
Proof.
  split.
  - intros T0 rd ev w until L Hr Hu.
    destruct (onresult_live T0 rd ev w L) as (_ & T1 & _ & _).
    split; [exact T1|].
    destruct (update_then_wait T0 until rd ev w L Hu) as [_ H].
    rewrite Hr, !andb_false_r in H.
    now destruct (live_recording _ _ H) as [-> _].
  - vm_compute. repeat split; try (right; left; reflexivity).
    intros H. repeat (destruct H as [H | H]; [discriminate H|]). exact H.
Qed.

Lemma silence_does_not_stop_witness :
  isRecording (state (elapse 3000 (onresult (mkRender false []) (final "hello") started)))
  = true.
Proof.
  destruct (proj1 silence_does_not_stop 0 (mkRender false []) (final "hello") started 3000)
    as [_ H]; [vm_compute; reflexivity | reflexivity | vm_compute; split; [discriminate | reflexivity] |].
  exact H.
Defined.

(** C5: whatever transcript updates arrive and however time passes, a
    session whose duration interval was armed at [T0] is not recording any
    more once the clock has reached [T0 + 60000]; left alone, it records
    until then and stops at that time; with an update every 500 ms the
    started session is still recording at 59999 ms and has stopped at
    60000 ms. *)
Theorem duration_cap :
  (forall (T0 : Z) (w : World) (es : list Event) (until : Z),
      live T0 w = true -> forallb is_update es = true ->
      T0 + 60000 <= until ->
      isRecording (state (run (es ++ [Elapse until]) w)) = false)
  /\ (forall (T0 : Z) (w : World) (until : Z),
        live T0 w = true -> timeouts (browser w) = [] ->
        now (browser w) <= until ->
        isRecording (state (elapse until w)) = negb (T0 + 60000 <=? until))
  /\ isRecording (state (run (updates_every_500 1 0 120 ++ [Elapse 59999]) started)) = true
  /\ isRecording (state (run (updates_every_500 1 0 120 ++ [Elapse 60000]) started)) = false.
Proof.
  split; [|split; [|split; vm_compute; reflexivity]].
  2: { intros T0 w until L Ht Hn.
       destruct (elapse_live T0 until w L Hn) as [_ H].
       unfold stops_by in H. rewrite (v_stops_by_none T0 until (view w) Ht) in H.
       unfold MAX_RECORDING_DURATION in H.
       destruct (T0 + 60000 <=? until).
       - now destruct (ended_idle _ H) as [-> _].
       - now destruct (live_recording _ _ H) as [-> _]. }
  intros T0 w es until L Hes Hu.
  unfold run. rewrite fold_left_app. cbn [fold_left]. fold (run es w).
  assert (I := run_updates T0 es w Hes (or_introl L)).
  set (w' := run es w) in *. unfold dispatch. cbn [handle].
  assert (E : ended (elapse until w') = true).
  { destruct I as [L' | E']; [|now apply elapse_ended].
    destruct (v_live_inv _ _ L')
      as (m & i & _ & _ & _ & _ & _ & _ & Hd & Hn & _ & _ & _).
    change (v_now (view w')) with (now (browser w')) in Hn.
    destruct (elapse_live T0 until w' L') as [_ H]; [lia|].
    unfold stops_by, v_stops_by in H.
    replace (T0 + MAX_RECORDING_DURATION <=? until) with true in H
      by (symmetry; solve_bools).
    exact H. }
  destruct (ended_idle _ E) as [R D].
  rewrite commit_settled by congruence. exact R.
Qed.

Lemma duration_cap_witness :
  isRecording
    (state (run ([Result 0 (final "hello"); Elapse 30000; Result 1 (interim "and")]
                 ++ [Elapse 60000]) started)) = false.
Proof.
  apply (proj1 duration_cap 0 started
           [Result 0 (final "hello"); Elapse 30000; Result 1 (interim "and")] 60000).
  - vm_compute. reflexivity.
  - reflexivity.
  - lia.
Defined.

(** * Further properties of the code *)

(** ** The duration display *)

Lemma two_digits :
  forall k : nat,
    (k < 60)%nat ->
    padStart 2 48%N (toString (Z.of_nat k))
    = [(48 + N.of_nat (k / 10))%N; (48 + N.of_nat (k mod 10))%N].
Proof.
  assert (H : forallb
                (fun k => bool_decide
                            (padStart 2 48%N (toString (Z.of_nat k))
                             = [(48 + N.of_nat (k / 10))%N; (48 + N.of_nat (k mod 10))%N]))
                (seq 0 60) = true) by (vm_compute; reflexivity).
  intros k Hk. rewrite forallb_forall in H.
  specialize (H k). rewrite in_seq in H.
  assert (Hk' : (0 <= k < 0 + 60)%nat) by lia.
  apply H in Hk'. now apply bool_decide_eq_true in Hk'.
Qed.

Lemma digits_inj (u u' : Decimal.uint) : digits u = digits u' -> u = u'.
Proof.
  revert u'. induction u as [|u IH|u IH|u IH|u IH|u IH|u IH|u IH|u IH|u IH|u IH];
    intros [|v|v|v|v|v|v|v|v|v|v] H; cbn in H; try discriminate; try reflexivity;
    injection H as H; f_equal; now apply IH.
Qed.

Lemma toString_inj (x y : Z) : 0 <= x -> 0 <= y -> toString x = toString y -> x = y.
Proof.
  intros Hx Hy. unfold toString.
  replace (x <? 0) with false by (symmetry; apply Z.ltb_ge; lia).
  replace (y <? 0) with false by (symmetry; apply Z.ltb_ge; lia).
  intros H. apply digits_inj, DecimalN.Unsigned.to_uint_inj in H. lia.
Qed.

Lemma formatDuration_fields (ms : Z) :
  0 <= ms ->
  formatDuration ms
  = toString (ms / 60000)
    ++ [58%N; Z.to_N (48 + (ms / 1000) mod 60 / 10); Z.to_N (48 + (ms / 1000) mod 60 mod 10)].
Proof.
  intros H. unfold formatDuration. cbv zeta.
  assert (Hs : 0 <= ms / 1000) by (apply Z.div_pos; lia).
  rewrite Z.rem_mod_nonneg by lia.
  rewrite Z.div_div by lia. change (1000 * 60) with 60000.
  set (s := (ms / 1000) mod 60).
  assert (Hr : 0 <= s < 60) by (apply Z.mod_pos_bound; lia).
  rewrite <- (Z2Nat.id s) at 1 by lia.
  rewrite two_digits by lia.
  assert (E1 : (48 + N.of_nat (Z.to_nat s / 10))%N = Z.to_N (48 + s / 10)).
  { apply N2Z.inj. rewrite N2Z.inj_add, nat_N_Z, Nat2Z.inj_div, !Z2Nat.id, Z2N.id;
      try lia. Z.div_mod_to_equations. lia. }
  assert (E2 : (48 + N.of_nat (Z.to_nat s mod 10))%N = Z.to_N (48 + s mod 10)).
  { apply N2Z.inj. rewrite N2Z.inj_add, nat_N_Z, Nat2Z.inj_mod, !Z2Nat.id, Z2N.id;
      try lia. Z.div_mod_to_equations. lia. }
  now rewrite E1, E2.
Qed.

(** X1: for a duration that is not negative, the display is the minutes in
    decimal, unpadded, a colon, and the seconds within the minute on exactly
    two digits, zero-padded. *)
Theorem formatDuration_layout :
  forall ms : Z,
    0 <= ms ->
    exists d1 d2 : Z,
      0 <= d1 <= 5 /\ 0 <= d2 <= 9
      /\ 10 * d1 + d2 = (ms / 1000) mod 60
      /\ formatDuration ms
         = toString (ms / 60000) ++ [58%N; Z.to_N (48 + d1); Z.to_N (48 + d2)].
Proof.
  intros ms H.
  exists ((ms / 1000) mod 60 / 10), ((ms / 1000) mod 60 mod 10).
  assert (Hr : 0 <= (ms / 1000) mod 60 < 60) by (apply Z.mod_pos_bound; lia).
  repeat split; try (Z.div_mod_to_equations; lia).
  now apply formatDuration_fields.
Qed.

Lemma formatDuration_layout_witness :
  exists d1 d2 : Z,
    0 <= d1 <= 5 /\ 0 <= d2 <= 9
    /\ 10 * d1 + d2 = (59999 / 1000) mod 60
    /\ formatDuration 59999
       = toString (59999 / 60000) ++ [58%N; Z.to_N (48 + d1); Z.to_N (48 + d2)].
Proof. apply (formatDuration_layout 59999). lia. Defined.

(** X2: two durations that are not negative are displayed alike exactly
    when they agree on the whole seconds: the display changes with every
    second and only then. *)
Theorem formatDuration_whole_seconds :
  forall a b : Z,
    0 <= a -> 0 <= b ->
    (formatDuration a = formatDuration b <-> a / 1000 = b / 1000).
Proof.
  intros a b Ha Hb. split.
  - rewrite !formatDuration_fields by assumption.
    intros H.
    change (?l ++ [?x; ?y; ?z]) with (l ++ [x] ++ [y] ++ [z]) in H.
    rewrite !app_assoc in H.
    apply app_inj_tail in H. destruct H as [H H3].
    apply app_inj_tail in H. destruct H as [H H2].
    apply app_inj_tail in H. destruct H as [H _].
    apply toString_inj in H; try (apply Z.div_pos; lia).
    assert (Hra : 0 <= (a / 1000) mod 60 < 60) by (apply Z.mod_pos_bound; lia).
    assert (Hrb : 0 <= (b / 1000) mod 60 < 60) by (apply Z.mod_pos_bound; lia).
    assert (E2 : 48 + (a / 1000) mod 60 / 10 = 48 + (b / 1000) mod 60 / 10)
      by (apply Z2N.inj; [| | exact H2]; Z.div_mod_to_equations; lia).
    assert (E3 : 48 + (a / 1000) mod 60 mod 10 = 48 + (b / 1000) mod 60 mod 10)
      by (apply Z2N.inj; [| | exact H3]; Z.div_mod_to_equations; lia).
    change 60000 with (1000 * 60) in H.
    rewrite <- !Z.div_div in H by lia.
    Z.div_mod_to_equations. lia.
  - intros H. unfold formatDuration. now rewrite H.
Qed.

Lemma formatDuration_whole_seconds_witness :
  formatDuration 61000 = formatDuration 61999 <-> 61000 / 1000 = 61999 / 1000.
Proof. apply (formatDuration_whole_seconds 61000 61999); lia. Defined.

(** ** Teardown *)

Lemma cleanup_refs (w : World) : refs (cleanup w) = refs w.
Proof. unfold cleanup. cbv zeta. branch; reflexivity. Qed.

(** Two readings of the same cell agree. *)
Ltac merge_hyps :=
  repeat match goal with
  | H1 : ?x = ?a, H2 : ?x = ?b |- _ =>
      rewrite H1 in H2;
      first [discriminate H2 | injection H2 as ?; subst | clear H2]
  end.

Lemma cleanup_browser (w : World) :
  browser (cleanup w) = cleaned (refs w) (browser w).
Proof.
  unfold cleanup, cleaned, context_open. cbv zeta.
  branch; reduce_hyps; merge_hyps; subst; cbn; use_hyps; try reflexivity;
    now destruct (browser w).
Qed.

Lemma cleanup_state (w : World) :
  state (cleanup w)
  = mkState (isRecording (state w)) (transcript (state w)) (isSpeaking (state w))
            (volume (state w)) 0.
Proof. unfold cleanup. cbv zeta. branch; reflexivity. Qed.

Lemma callbacks_app (l1 l2 : list Effect) :
  callbacks (l1 ++ l2) = callbacks l1 ++ callbacks l2.
Proof. unfold callbacks. apply List.filter_app. Qed.

Lemma cleanup_log (w : World) :
  exists ops, log (cleanup w) = log w ++ ops /\ callbacks ops = [].
Proof.
  unfold cleanup. cbv zeta.
  branch; cbn; rewrite <- ?app_assoc; cbn;
    (eexists; split; [reflexivity | reflexivity]) || (exists []; now rewrite app_nil_r).
Qed.

Lemma filter_twice {A} (f : A -> bool) (l : list A) :
  List.filter f (List.filter f l) = List.filter f l.
Proof.
  induction l as [|x l IH]; [reflexivity|]. cbn.
  destruct (f x) eqn:E; cbn; rewrite ?E, IH; reflexivity.
Qed.

Lemma filter_all {A} (f : A -> bool) (l : list A) :
  Forall (fun x => f x = true) (List.filter f l).
Proof.
  induction l as [|x l IH]; [constructor|]. cbn.
  destruct (f x) eqn:E; [constructor|]; assumption.
Qed.

Lemma stop_twice (r : nat) (l : list SpeechRecognition) :
  alter (fun x => mkRecognition (rec_render x) false) r
    (alter (fun x => mkRecognition (rec_render x) false) r l)
  = alter (fun x => mkRecognition (rec_render x) false) r l.
Proof.
  revert r. induction l as [|x l IH]; intros [|r]; try reflexivity.
  cbn. f_equal. apply IH.
Qed.

Lemma close_twice (c : nat) (l : list AudioContextState) :
  match <[c := closed]> l !! c with
  | Some closed => <[c := closed]> l
  | _ => <[c := closed]> (<[c := closed]> l)
  end = <[c := closed]> l.
Proof.
  destruct (<[c := closed]> l !! c) as [[|]|]; try reflexivity;
    apply list_insert_insert_eq.
Qed.

Lemma cleaned_twice (r : Refs) (b : Browser) : cleaned r (cleaned r b) = cleaned r b.
Proof.
  unfold cleaned. cbn. f_equal.
  - destruct (audioContextRef r) as [c|]; [|reflexivity].
    destruct (contexts b !! c) as [[|]|] eqn:E; rewrite ?E; try reflexivity;
      apply close_twice.
  - destruct (recognitionRef r); [apply stop_twice | reflexivity].
  - destruct (silenceTimeoutRef r); [apply filter_twice | reflexivity].
  - destruct (durationIntervalRef r); [apply filter_twice | reflexivity].
  - destruct (animationFrameRef r); [apply filter_twice | reflexivity].
Qed.

(** X3: running [cleanup] a second time changes no state cell, no
    reference cell and no browser object: teardown is idempotent. *)
Theorem cleanup_idempotent :
  forall w : World,
    state (cleanup (cleanup w)) = state (cleanup w)
    /\ refs (cleanup (cleanup w)) = refs (cleanup w)
    /\ browser (cleanup (cleanup w)) = browser (cleanup w).
Proof.
  intros w. split; [|split].
  - now rewrite !cleanup_state.
  - now rewrite !cleanup_refs.
  - rewrite !cleanup_browser, cleanup_refs. apply cleaned_twice.
Qed.

Lemma cleaned_releases (r : Refs) (b : Browser) :
  (forall id, silenceTimeoutRef r = Some id ->
              Forall (fun t => t_id t <> id) (timeouts (cleaned r b)))
  /\ (forall id, durationIntervalRef r = Some id ->
                 Forall (fun i => i_id i <> id) (intervals (cleaned r b)))
  /\ (forall id, animationFrameRef r = Some id ->
                 Forall (fun f => f <> id) (frames (cleaned r b)))
  /\ (forall k x, recognitionRef r = Some k ->
                  recognizers (cleaned r b) !! k = Some x -> rec_started x = false)
  /\ (forall c s, audioContextRef r = Some c ->
                  contexts (cleaned r b) !! c = Some s -> s = closed).
Proof.
  unfold cleaned. cbn. repeat split.
  - intros id ->. unfold drop_timeout.
    eapply List.Forall_impl; [|apply filter_all]. cbn. intros t H.
    apply negb_true_iff, Nat.eqb_neq in H. exact H.
  - intros id ->. unfold drop_interval.
    eapply List.Forall_impl; [|apply filter_all]. cbn. intros t H.
    apply negb_true_iff, Nat.eqb_neq in H. exact H.
  - intros id ->. unfold drop_frame.
    eapply List.Forall_impl; [|apply filter_all]. cbn. intros t H.
    apply negb_true_iff, Nat.eqb_neq in H. exact H.
  - intros k x ->. rewrite list_lookup_alter_eq.
    destruct (recognizers b !! k); cbn; [|discriminate].
    now intros [= <-].
  - intros c s ->.
    destruct (contexts b !! c) as [[|]|] eqn:E.
    + rewrite list_lookup_insert_eq by (now apply lookup_lt_Some in E). now intros [= <-].
    + rewrite E. now intros [= <-].
    + rewrite list_insert_ge by (now apply lookup_ge_None). rewrite E. discriminate.
Qed.

(** X4: after [cleanup] no timeout, interval or animation frame whose handle
    a reference cell holds is pending, the recognizer and the audio context
    that the cells refer to are stopped and closed, and the displayed
    duration is 0. *)
Theorem cleanup_releases :
  forall w : World,
    (forall id, silenceTimeoutRef (refs w) = Some id ->
                Forall (fun t => t_id t <> id) (timeouts (browser (cleanup w))))
    /\ (forall id, durationIntervalRef (refs w) = Some id ->
                   Forall (fun i => i_id i <> id) (intervals (browser (cleanup w))))
    /\ (forall id, animationFrameRef (refs w) = Some id ->
                   Forall (fun f => f <> id) (frames (browser (cleanup w))))
    /\ (forall r x, recognitionRef (refs w) = Some r ->
                    recognizers (browser (cleanup w)) !! r = Some x ->
                    rec_started x = false)
    /\ (forall c s, audioContextRef (refs w) = Some c ->
                    contexts (browser (cleanup w)) !! c = Some s -> s = closed)
    /\ recordingDuration (state (cleanup w)) = 0.
Proof.
  intros w. rewrite cleanup_browser, cleanup_state.
  destruct (cleaned_releases (refs w) (browser w)) as (A & B & C & D & E).
  repeat split; assumption.
Qed.

Lemma cleanup_releases_witness :
  silenceTimeoutRef (refs (dispatch started (Result 0 (final "hi")))) = Some 3%nat
  /\ Forall (fun t => t_id t <> 3%nat)
        (timeouts (browser (cleanup (dispatch started (Result 0 (final "hi")))))).
Proof.
  split; [reflexivity|].
  apply (proj1 (cleanup_releases (dispatch started (Result 0 (final "hi")))) 3%nat).
  reflexivity.
Defined.

(** X5: [cleanup] leaves the reference cells, the media streams and the
    recorders as they are (it stops no track and no recorder), keeps
    [isRecording], [transcript], [isSpeaking] and [volume], and calls neither
    [onRecordingComplete] nor [onInputChange]; the log only grows. *)
Theorem cleanup_frame :
  forall w : World,
    refs (cleanup w) = refs w
    /\ streams (browser (cleanup w)) = streams (browser w)
    /\ recorders (browser (cleanup w)) = recorders (browser w)
    /\ isRecording (state (cleanup w)) = isRecording (state w)
    /\ transcript (state (cleanup w)) = transcript (state w)
    /\ isSpeaking (state (cleanup w)) = isSpeaking (state w)
    /\ volume (state (cleanup w)) = volume (state w)
    /\ callbacks (log (cleanup w)) = callbacks (log w)
    /\ exists ops, log (cleanup w) = log w ++ ops.
Proof.
  intros w. rewrite cleanup_browser, cleanup_state, cleanup_refs.
  destruct (cleanup_log w) as (ops & E & C). rewrite E, callbacks_app, C, app_nil_r.
  repeat split. now exists ops.
Qed.

(** ** Stopping and the recorder's stop event *)

Lemma stopRecording_refs (rd : Render) (w : World) : refs (stopRecording rd w) = refs w.
Proof. unfold stopRecording. cbv zeta. branch; reflexivity. Qed.

Lemma stopRecording_browser (rd : Render) (w : World) (m : nat) :
  mediaRecorderRef (refs w) = Some m -> r_isRecording rd = true ->
  browser (stopRecording rd w)
  = mkBrowser
      (streams (browser w))
      (alter (fun x => mkRecorder inactive (mr_stream x)) m (recorders (browser w)))
      (contexts (browser w))
      (match recognitionRef (refs w) with
       | Some r => alter (fun x => mkRecognition (rec_render x) false) r
                     (recognizers (browser w))
       | None => recognizers (browser w)
       end)
      (match silenceTimeoutRef (refs w) with
       | Some id => drop_timeout id (timeouts (browser w))
       | None => timeouts (browser w)
       end)
      (intervals (browser w)) (frames (browser w))
      (nextHandle (browser w)) (now (browser w)).
Proof.
  intros Hm Hr. unfold stopRecording. rewrite Hm, Hr. cbv zeta.
  branch; reduce_hyps; merge_hyps; subst; cbn; use_hyps; reflexivity.
Qed.

Lemma stopRecording_state (rd : Render) (w : World) (m : nat) :
  mediaRecorderRef (refs w) = Some m -> r_isRecording rd = true ->
  state (stopRecording rd w)
  = mkState false [] false (volume (state w)) (recordingDuration (state w)).
Proof.
  intros Hm Hr. unfold stopRecording. rewrite Hm, Hr. cbv zeta. branch; reflexivity.
Qed.

Lemma stopRecording_callbacks (rd : Render) (w : World) (m : nat) :
  mediaRecorderRef (refs w) = Some m -> r_isRecording rd = true ->
  callbacks (log (stopRecording rd w))
  = callbacks (log w)
    ++ (if truthy (trim (r_transcript rd))
        then [OnRecordingComplete (r_transcript rd)] else []).
Proof.
  intros Hm Hr. unfold stopRecording. rewrite Hm, Hr. cbv zeta.
  branch; cbn; rewrite ?callbacks_app; cbn; rewrite ?app_nil_r; reflexivity.
Qed.

(** X6: a call of [stopRecording] that passes its guard makes the recorder
    inactive, clears the pending silence timeout, resets [isRecording],
    [isSpeaking] and [transcript], and calls [onRecordingComplete] once with
    its render's transcript when that is not blank, and not at all
    otherwise; it keeps every reference cell (the recorder handle included)
    and neither stops the stream's tracks nor closes the audio context. *)
Theorem stop_effects :
  forall (rd : Render) (w : World) (m : nat),
    mediaRecorderRef (refs w) = Some m -> r_isRecording rd = true ->
    state (stopRecording rd w)
    = mkState false [] false (volume (state w)) (recordingDuration (state w))
    /\ callbacks (log (stopRecording rd w))
       = callbacks (log w)
         ++ (if truthy (trim (r_transcript rd))
             then [OnRecordingComplete (r_transcript rd)] else [])
    /\ (forall x, recorders (browser w) !! m = Some x ->
                  recorders (browser (stopRecording rd w)) !! m
                  = Some (mkRecorder inactive (mr_stream x)))
    /\ (forall id, silenceTimeoutRef (refs w) = Some id ->
                   Forall (fun t => t_id t <> id)
                          (timeouts (browser (stopRecording rd w))))
    /\ refs (stopRecording rd w) = refs w
    /\ streams (browser (stopRecording rd w)) = streams (browser w)
    /\ contexts (browser (stopRecording rd w)) = contexts (browser w)
    /\ intervals (browser (stopRecording rd w)) = intervals (browser w).
Proof.
  intros rd w m Hm Hr.
  rewrite (stopRecording_browser rd w m Hm Hr), (stopRecording_state rd w m Hm Hr),
    (stopRecording_callbacks rd w m Hm Hr), stopRecording_refs. cbn.
  repeat split.
  - intros x Hx. rewrite list_lookup_alter_eq, Hx. reflexivity.
  - intros id ->. unfold drop_timeout.
    eapply List.Forall_impl; [|apply filter_all]. cbn. intros t H.
    apply negb_true_iff, Nat.eqb_neq in H. exact H.
Qed.

Lemma stop_effects_witness :
  let w := dispatch started (Result 0 (final "hello")) in
  callbacks (log (stopRecording (render_of w) w))
  = callbacks (log w) ++ [OnRecordingComplete (js "hello")].
Proof.
  destruct (stop_effects (mkRender true (js "hello"))
              (dispatch started (Result 0 (final "hello"))) 0%nat)
    as (_ & H & _); [reflexivity | reflexivity |].
  exact H.
Defined.

(** X7: after a [stopRecording] that passes its guard, the recorder's stop
    event releases what is left: the tracks of the recorder's stream are
    stopped, the audio context of the reference cell is closed, and no
    silence timeout, duration interval or animation frame held by a reference
    cell is pending; the session is not recording. *)
Theorem stop_then_recorder_stopped :
  forall (rd : Render) (w : World) (m : nat) (x : MediaRecorder),
    mediaRecorderRef (refs w) = Some m -> r_isRecording rd = true ->
    recorders (browser w) !! m = Some x ->
    let w' := recorder_onstop m (stopRecording rd w) in
    isRecording (state w') = false
    /\ (forall s, streams (browser w') !! mr_stream x = Some s -> s = false)
    /\ (forall c s, audioContextRef (refs w) = Some c ->
                    contexts (browser w') !! c = Some s -> s = closed)
    /\ (forall id, silenceTimeoutRef (refs w) = Some id ->
                   Forall (fun t => t_id t <> id) (timeouts (browser w')))
    /\ (forall id, durationIntervalRef (refs w) = Some id ->
                   Forall (fun i => i_id i <> id) (intervals (browser w')))
    /\ (forall id, animationFrameRef (refs w) = Some id ->
                   Forall (fun f => f <> id) (frames (browser w')))
    /\ (forall k y, recognitionRef (refs w) = Some k ->
                    recognizers (browser w') !! k = Some y -> rec_started y = false).
Proof.
  intros rd w m x Hm Hr Hx w'. unfold w', recorder_onstop.
  rewrite (stopRecording_browser rd w m Hm Hr). cbn [recorders].
  rewrite list_lookup_alter_eq, Hx. cbn [fmap option_fmap option_map mr_stream].
  set (w1 := tracks_stop (mr_stream x) (stopRecording rd w)).
  assert (R1 : refs w1 = refs w) by (unfold w1; cbn; apply stopRecording_refs).
  rewrite cleanup_browser, cleanup_state, R1.
  destruct (cleaned_releases (refs w) (browser w1)) as (A & B & C & D & E).
  split; [|split; [|repeat split; auto]].
  - unfold w1. cbn. now rewrite (stopRecording_state rd w m Hm Hr).
  - unfold w1, cleaned. cbn. intros s.
    destruct (streams (browser (stopRecording rd w)) !! mr_stream x) eqn:Es.
    + rewrite list_lookup_insert_eq by (now apply lookup_lt_Some in Es). now intros [= <-].
    + rewrite list_insert_ge by (now apply lookup_ge_None). rewrite Es. discriminate.
Qed.

Lemma stop_then_recorder_stopped_witness :
  isRecording (state (recorder_onstop 0 (stopRecording (mkRender true []) started)))
  = false.
Proof.
  destruct (stop_then_recorder_stopped (mkRender true []) started 0%nat
              (mkRecorder recording 0))
    as (H & _); [reflexivity | reflexivity | reflexivity |].
  exact H.
Defined.

(** ** Result batches *)

Lemma onresult_state (rd : Render) (ev : SpeechRecognitionEvent) (w : World) :
  state (onresult rd ev w)
  = mkState (isRecording (state w)) (currentTranscript ev) (isSpeaking (state w))
            (volume (state w)) (recordingDuration (state w)).
Proof. unfold onresult, fresh_handle. cbv zeta. branch; reflexivity. Qed.

Lemma onresult_callbacks (rd : Render) (ev : SpeechRecognitionEvent) (w : World) :
  callbacks (log (onresult rd ev w))
  = callbacks (log w) ++ [OnInputChange (currentTranscript ev)].
Proof.
  unfold onresult, fresh_handle. cbv zeta.
  branch; cbn; rewrite ?callbacks_app; cbn; rewrite ?app_nil_r; reflexivity.
Qed.

(** X8: a result batch sends the parent exactly one preview, the new
    transcript, and no completion; apart from the transcript and the silence
    timeout it changes nothing of the session: the other state cells, the
    recorder, the streams, the audio contexts, the recognizers, the duration
    interval and the animation frames stay as they are. *)
Theorem batch_only_previews :
  forall (rd : Render) (ev : SpeechRecognitionEvent) (w : World),
    callbacks (log (onresult rd ev w))
    = callbacks (log w) ++ [OnInputChange (transcript (state (onresult rd ev w)))]
    /\ isRecording (state (onresult rd ev w)) = isRecording (state w)
    /\ isSpeaking (state (onresult rd ev w)) = isSpeaking (state w)
    /\ volume (state (onresult rd ev w)) = volume (state w)
    /\ recordingDuration (state (onresult rd ev w)) = recordingDuration (state w)
    /\ streams (browser (onresult rd ev w)) = streams (browser w)
    /\ recorders (browser (onresult rd ev w)) = recorders (browser w)
    /\ contexts (browser (onresult rd ev w)) = contexts (browser w)
    /\ recognizers (browser (onresult rd ev w)) = recognizers (browser w)
    /\ intervals (browser (onresult rd ev w)) = intervals (browser w)
    /\ frames (browser (onresult rd ev w)) = frames (browser w)
    /\ mediaRecorderRef (refs (onresult rd ev w)) = mediaRecorderRef (refs w)
    /\ recognitionRef (refs (onresult rd ev w)) = recognitionRef (refs w)
    /\ durationIntervalRef (refs (onresult rd ev w)) = durationIntervalRef (refs w).
Proof.
  intros rd ev w. rewrite onresult_callbacks, onresult_state. cbn.
  split; [reflexivity|].
  unfold onresult, fresh_handle. cbv zeta.
  destruct (silenceTimeoutRef (refs _)); cbn; repeat split.
Qed.

Lemma concat_empty (l : list SpeechRecognitionResult) :
  Forall (fun r => res_transcript r = []) l -> concat (map res_transcript l) = [].
Proof.
  induction 1 as [|r l Hr _ IH]; [reflexivity|]. cbn. now rewrite Hr, IH.
Qed.

Lemma Forall_filter_keeps {A} (P : A -> Prop) (f : A -> bool) (l : list A) :
  Forall P l -> Forall P (List.filter f l).
Proof.
  induction 1 as [|x l Hx _ IH]; [constructor|]. cbn.
  destruct (f x); [constructor|]; assumption.
Qed.

(** X9: a batch that carries no text from its start index onward (all its
    fragments there are empty, or the start index is at or past the end of the
    result list) clears the transcript and previews the empty string. *)
Theorem batch_without_text :
  forall (rd : Render) (ev : SpeechRecognitionEvent) (w : World),
    Forall (fun r => res_transcript r = []) (skipn (resultIndex ev) (results ev)) ->
    transcript (state (onresult rd ev w)) = []
    /\ callbacks (log (onresult rd ev w)) = callbacks (log w) ++ [OnInputChange []].
Proof.
  intros rd ev w H.
  assert (E : currentTranscript ev = []).
  { rewrite currentTranscript_spec. unfold final_text, interim_text, fragments.
    rewrite !concat_empty by (now apply Forall_filter_keeps). reflexivity. }
  rewrite onresult_callbacks, onresult_state, E. split; reflexivity.
Qed.

Lemma batch_without_text_witness :
  transcript (state (onresult (mkRender false []) (mkEvent 2 [mkResult (js "late") true])
                       (dispatch started (Result 0 (final "hello")))))
  = [].
Proof.
  apply (batch_without_text (mkRender false []) (mkEvent 2 [mkResult (js "late") true])
           (dispatch started (Result 0 (final "hello")))).
  constructor.
Defined.

(** ** Level monitor *)

Lemma bins_nonneg (d : list Byte.byte) : 0 <= fold_right Z.add 0 (map bin d).
Proof.
  induction d as [|b d IH]; cbn; [lia|].
  assert (0 <= bin b) by (unfold bin; lia). lia.
Qed.

Lemma checkAudioLevel_nonempty (frame : list Byte.byte) (w w' : World) :
  checkAudioLevel frame w = (w', Some tt) -> frame <> [].
Proof. intros H ->. discriminate H. Qed.

Lemma checkAudioLevel_volume (frame : list Byte.byte) (w w' : World) :
  checkAudioLevel frame w = (w', Some tt) ->
  volume (state w') = Qmin (mean frame / 128) 1
  /\ isSpeaking (state w') = above_threshold (Qmin (mean frame / 128) 1).
Proof.
  intros H.
  destruct (checkAudioLevel_returns frame (mean frame) w
              (average_mean frame (checkAudioLevel_nonempty _ _ _ H)))
    as (w2 & H2 & V & S).
  rewrite H in H2. injection H2 as <-. now split.
Qed.

(** The mean over 128, against a fraction, in whole numbers. *)
Lemma scaled_mean_lt (d : list Byte.byte) (p q : positive) :
  d <> [] ->
  ((Zpos p # q) < mean d / 128)%Q
  <-> Zpos p * 128 * Z.of_nat (length d) < Zpos q * fold_right Z.add 0 (map bin d).
Proof.
  intros Hd. unfold mean.
  destruct d as [|b d]; [congruence|].
  set (s := fold_right Z.add 0 (map bin (b :: d))).
  cbn [length]. rewrite Nat2Z.inj_succ, <- Zpos_P_of_succ_nat.
  unfold Qlt, Qdiv, Qmult, Qinv, inject_Z. cbn.
  rewrite !Pos2Z.inj_mul.
  generalize (Z.pos (Pos.of_succ_nat (length d))) (Z.pos p) (Z.pos q)
             (bin b + fold_right Z.add 0 (map bin d)).
  intros n P Q t.
  replace (P * (1 * n * 128)) with (P * 128 * n) by ring.
  replace (t * 1 * 1 * Q) with (Q * t) by ring. reflexivity.
Qed.

Lemma scaled_mean_le (d : list Byte.byte) :
  d <> [] ->
  (1 <= mean d / 128)%Q
  <-> 128 * Z.of_nat (length d) <= fold_right Z.add 0 (map bin d).
Proof.
  intros Hd. unfold mean.
  destruct d as [|b d]; [congruence|].
  set (s := fold_right Z.add 0 (map bin (b :: d))).
  cbn [length]. rewrite Nat2Z.inj_succ, <- Zpos_P_of_succ_nat.
  unfold Qle, Qdiv, Qmult, Qinv, inject_Z. cbn.
  rewrite !Pos2Z.inj_mul.
  generalize (Z.pos (Pos.of_succ_nat (length d)))
             (bin b + fold_right Z.add 0 (map bin d)).
  intros n t. lia.
Qed.

(** X10: after a tick of the level monitor the volume lies between 0 and 1;
    it is 1 exactly when the bins sum to at least 128 times their number, and
    [isSpeaking] holds exactly when 5 times the sum exceeds 96 times their
    number (a mean above 19.2). *)
Theorem level_bounds :
  forall (frame : list Byte.byte) (w w' : World),
    checkAudioLevel frame w = (w', Some tt) ->
    (0 <= volume (state w') <= 1)%Q
    /\ ((volume (state w') == 1)%Q
        <-> 128 * Z.of_nat (length frame) <= fold_right Z.add 0 (map bin frame))
    /\ (isSpeaking (state w') = true
        <-> 96 * Z.of_nat (length frame) < 5 * fold_right Z.add 0 (map bin frame)).
Proof.
  intros frame w w' H.
  pose proof (checkAudioLevel_nonempty _ _ _ H) as Hne.
  destruct (checkAudioLevel_volume _ _ _ H) as [-> ->].
  pose proof (bins_nonneg frame) as Hs.
  assert (Hpos : (0 <= mean frame / 128)%Q).
  { unfold mean. destruct frame as [|b d]; [congruence|].
    revert Hs. generalize (fold_right Z.add 0 (map bin (b :: d))). intros t Ht.
    cbn [length]. rewrite Nat2Z.inj_succ, <- Zpos_P_of_succ_nat.
    unfold Qle, Qdiv, Qmult, Qinv, inject_Z. cbn. lia. }
  split; [split|split].
  - apply Q.min_glb; [exact Hpos | discriminate].
  - apply Q.le_min_r.
  - rewrite <- (scaled_mean_le frame Hne). rewrite Q.min_r_iff. reflexivity.
  - rewrite above_threshold_iff, Q.min_glb_lt_iff.
    rewrite (scaled_mean_lt frame 15 100 Hne).
    split; [intros [A _]; lia | intros A; split; [lia | reflexivity]].
Qed.

Lemma level_bounds_witness :
  exists w',
    checkAudioLevel [Byte.x13; Byte.x14] started = (w', Some tt)
    /\ (isSpeaking (state w') = true
        <-> 96 * Z.of_nat (length [Byte.x13; Byte.x14])
            < 5 * fold_right Z.add 0 (map bin [Byte.x13; Byte.x14])).
Proof.
  eexists. split; [reflexivity|].
  eapply (level_bounds [Byte.x13; Byte.x14] started). reflexivity.
Defined.

Lemma checkAudioLevel_frames (frame : list Byte.byte) (w : World) :
  frame <> [] ->
  exists w',
    checkAudioLevel frame w = (w', Some tt)
    /\ frames (browser w') = frames (browser w) ++ [nextHandle (browser w)]
    /\ animationFrameRef (refs w') = Some (nextHandle (browser w))
    /\ nextHandle (browser w') = S (nextHandle (browser w))
    /\ dataArrayRef (refs w') = Some frame.
Proof.
  intros H. unfold checkAudioLevel. rewrite (average_mean frame H).
  eexists. split; [reflexivity|]. repeat split.
Qed.

(** X11: the sampling loop keeps exactly one animation frame pending: a
    frame callback on a non-empty buffer consumes the pending request and
    files one new request, whose handle it stores; on an empty buffer
    [reduce] throws before the request and none is left. *)
Theorem sampling_loop :
  forall (frame : list Byte.byte) (h : nat) (w : World),
    frames (browser w) = [h] ->
    (frame <> [] ->
       frames (browser (handle (AnimationFrame frame) w)) = [nextHandle (browser w)]
       /\ animationFrameRef (refs (handle (AnimationFrame frame) w))
          = Some (nextHandle (browser w)))
    /\ (frame = [] -> frames (browser (handle (AnimationFrame frame) w)) = []).
Proof.
  intros frame h w Hf. cbn [handle]. rewrite Hf. split.
  - intros Hne.
    destruct (checkAudioLevel_frames frame (set_frames [] w) Hne)
      as (w' & E & F & A & _).
    rewrite E. cbn [fst]. rewrite F, A. split; reflexivity.
  - intros ->. reflexivity.
Qed.

Lemma sampling_loop_witness :
  frames (browser (handle (AnimationFrame [Byte.x80])
                     (startRecording NoFault quiet_frame (mount true))))
  = [2%nat].
Proof.
  destruct (sampling_loop [Byte.x80] 1%nat
              (startRecording NoFault quiet_frame (mount true)))
    as [H _]; [reflexivity|].
  destruct H as [H _]; [discriminate|]. exact H.
Defined.
